(** * BrewHaven Café API: cart, order, catalog and auth handlers of [main.py]

    A shallow embedding of the request handlers of [src/main.py].

    - The Cosmos DB containers are lists of documents in store order, and a
      query returns the matching documents in that order.  The three
      module-level handles ([products_container], [cart_container],
      [orders_container]) are [None] when [init_cosmos] returned early.
    - Documents are records with the keys the handlers index; the two keys
      [get_cart] reads with [dict.get] are optional.
    - Every store call can raise: the world carries a schedule of pending
      outcomes, one per store call, so that a failure at any point of a
      handler can be stated.  Besides, [create_item] raises on a key that is
      taken and [delete_item] on a key that is absent, as Cosmos does.
    - [uuid.uuid4()] and [datetime.utcnow()] are inputs of the handlers that
      call them.
    - A JWT is kept symbolic (claims, signing key, algorithm); clocks and
      [exp] are whole seconds, the unit in which python-jose compares them. *)

From Stdlib Require Import String ZArith QArith List Bool Lia.
Import ListNotations.
Open Scope string_scope.
Open Scope Z_scope.
Open Scope list_scope.

(** ** Documents *)

(** A product document.  [get_cart] reads ["image"] and ["category"] with
    [dict.get] and a default, so these two keys may be absent. *)
Record Product := mkProduct {
  p_id : string;
  p_name : string;
  p_description : string;
  p_category : option string;
  p_price : Q;
  p_stock : Z;
  p_image : option string
}.

(** A cart document, as [add_to_cart] writes it. *)
Record CartLine := mkCartLine {
  cl_id : string;
  cl_user_id : string;
  cl_product_id : string;
  cl_quantity : Z
}.

(** One entry of an order's ["items"]. *)
Record OrderItem := mkOrderItem {
  oi_product_id : string;
  oi_quantity : Z
}.

Record Order := mkOrder {
  o_id : string;
  o_user_id : string;
  o_items : list OrderItem;
  o_status : string;
  o_created_at : string
}.

(** The body of [POST /api/v1/cart/items] (pydantic [CartItem]). *)
Record CartItem := mkCartItem {
  item_product_id : string;
  item_quantity : Z
}.

(** The body of [POST /auth/login]. *)
Record LoginRequest := mkLoginRequest {
  username : string;
  password : string
}.

(** One entry of the list [get_cart] returns. *)
Record EnrichedLine := mkEnrichedLine {
  e_id : string;
  e_name : string;
  e_price : Q;
  e_quantity : Z;
  e_image : string;
  e_category : string
}.

(** ** Constants of the module *)

Definition DEMO_USERNAME : string := "barista".
Definition DEMO_PASSWORD : string := "coffee123".
Definition JWT_ALGORITHM : string := "HS256".
Definition ACCESS_TOKEN_EXPIRE_MINUTES : Z := 60.
Definition DEFAULT_USER : string := "cafe_guest".

(** ** Exceptions raised by the store *)

Inductive exn :=
  | CosmosHttpResponseError (message : string)
  | CosmosResourceExistsError (message : string)
  | CosmosResourceNotFoundError (message : string)
  | ServiceRequestError (message : string)
  | AttributeError (message : string)
  | KeyError (message : string).

(** [str(e)]. *)
Definition str (e : exn) : string :=
  match e with
  | CosmosHttpResponseError m | CosmosResourceExistsError m
  | CosmosResourceNotFoundError m | ServiceRequestError m
  | AttributeError m | KeyError m => m
  end.

(** [isinstance(e, exceptions.CosmosHttpResponseError)]: the two resource
    errors are subclasses of it, the transport error, [AttributeError] and
    [KeyError] are not. *)
Definition is_CosmosHttpResponseError (e : exn) : bool :=
  match e with
  | CosmosHttpResponseError _ | CosmosResourceExistsError _
  | CosmosResourceNotFoundError _ => true
  | ServiceRequestError _ | AttributeError _ | KeyError _ => false
  end.

(** ** The store *)

(** A document has an id and a partition key; Cosmos keeps ids unique within
    a partition. *)
Class Document (A : Type) := {
  doc_id : A -> string;
  partition_key : A -> string
}.

(** The handlers only read the products container; its partition key plays
    no role in them. *)
#[global] Instance Product_Document : Document Product :=
  {| doc_id := p_id; partition_key := p_id |}.
(** [delete_item(item["id"], partition_key=DEFAULT_USER)] addresses cart
    documents by their [user_id]. *)
#[global] Instance CartLine_Document : Document CartLine :=
  {| doc_id := cl_id; partition_key := cl_user_id |}.
#[global] Instance Order_Document : Document Order :=
  {| doc_id := o_id; partition_key := o_user_id |}.

Section Container.
Context {A : Type} `{Document A}.

Definition has_key (id pk : string) (d : A) : bool :=
  (doc_id d =? id)%string && (partition_key d =? pk)%string.

Definition same_key (d : A) : A -> bool :=
  has_key (doc_id d) (partition_key d).

Definition doc_key (d : A) : string * string := (partition_key d, doc_id d).

(** What Cosmos guarantees of a container. *)
Definition wf_container (c : list A) : Prop := NoDup (map doc_key c).

(** [container.query_items(...)] with a [WHERE] clause [cond]. *)
Definition select (cond : A -> bool) (c : list A) : list A := filter cond c.

(** [container.create_item(doc)]: conflict when the key is taken. *)
Definition create (doc : A) (c : list A) : exn + list A :=
  if existsb (same_key doc) c
  then inl (CosmosResourceExistsError "Conflict")
  else inr (c ++ [doc]).

(** [container.upsert_item(doc)]: replace the document with that key, or
    insert. *)
Definition upsert (doc : A) (c : list A) : list A :=
  if existsb (same_key doc) c
  then map (fun d => if same_key doc d then doc else d) c
  else c ++ [doc].

(** [container.delete_item(id, partition_key=pk)]. *)
Definition delete (id pk : string) (c : list A) : exn + list A :=
  if existsb (has_key id pk) c
  then inr (filter (fun d => negb (has_key id pk d)) c)
  else inl (CosmosResourceNotFoundError "NotFound").
End Container.

Record World := mkWorld {
  products_container : option (list Product);
  cart_container : option (list CartLine);
  orders_container : option (list Order);
  (** outcome of the coming store calls: [Some e] makes the call raise [e];
      an exhausted schedule means no more failures *)
  faults : list (option exn)
}.

Definition set_products (c : list Product) (w : World) : World :=
  mkWorld (Some c) (cart_container w) (orders_container w) (faults w).
Definition set_cart (c : list CartLine) (w : World) : World :=
  mkWorld (products_container w) (Some c) (orders_container w) (faults w).
Definition set_orders (c : list Order) (w : World) : World :=
  mkWorld (products_container w) (cart_container w) (Some c) (faults w).
Definition set_faults (fs : list (option exn)) (w : World) : World :=
  mkWorld (products_container w) (cart_container w) (orders_container w) fs.

(** A module-level handle: how to read and write the container behind it. *)
Record Handle (A : Type) := mkHandle {
  contents : World -> option (list A);
  store : list A -> World -> World
}.

Arguments mkHandle {A} contents store.
Arguments contents {A} h w.
Arguments store {A} h c w.

Definition Products : Handle Product := mkHandle products_container set_products.
Definition Cart : Handle CartLine := mkHandle cart_container set_cart.
Definition Orders : Handle Order := mkHandle orders_container set_orders.

(** [not container] *)
Definition unset {A} (h : Handle A) (w : World) : bool :=
  match contents h w with None => true | Some _ => false end.

(** ** Store calls as a state-and-exception monad *)

Definition M (A : Type) : Type := World -> (exn + A) * World.

Definition ret {A} (a : A) : M A := fun w => (inr a, w).
Definition raise {A} (e : exn) : M A := fun w => (inl e, w).
Definition bind {A B} (m : M A) (k : A -> M B) : M B :=
  fun w => match m w with
           | (inl e, w') => (inl e, w')
           | (inr a, w') => k a w'
           end.

Declare Scope store_scope.
Delimit Scope store_scope with store.
Notation "x <- m ;; k" := (bind m (fun x => k))
  (at level 100, m at next level, right associativity) : store_scope.
Notation "m ;;; k" := (bind m (fun _ => k))
  (at level 100, right associativity) : store_scope.
Open Scope store_scope.

(** One call on the container behind [h]: [None.method] raises
    [AttributeError]; otherwise the next scheduled outcome is consumed and,
    unless it is a failure, [f] runs on the stored documents. *)
Definition call {A R} (h : Handle A) (f : list A -> exn + (R * list A)) : M R :=
  fun w =>
    match contents h w with
    | None => (inl (AttributeError "'NoneType' object has no attribute"), w)
    | Some c =>
        match faults w with
        | Some e :: fs => (inl e, set_faults fs w)
        | scheduled =>
            let w' := set_faults (tl scheduled) w in
            match f c with
            | inl e => (inl e, w')
            | inr (r, c') => (inr r, store h c' w')
            end
        end
    end.

Definition query_items {A} `{Document A} (h : Handle A) (cond : A -> bool)
  : M (list A) :=
  call h (fun c => inr (select cond c, c)).

Definition create_item {A} `{Document A} (h : Handle A) (doc : A) : M unit :=
  call h (fun c => match create doc c with
                   | inl e => inl e
                   | inr c' => inr (tt, c')
                   end).

Definition upsert_item {A} `{Document A} (h : Handle A) (doc : A) : M unit :=
  call h (fun c => inr (tt, upsert doc c)).

Definition delete_item {A} `{Document A} (h : Handle A) (id pk : string) : M unit :=
  call h (fun c => match delete id pk c with
                   | inl e => inl e
                   | inr c' => inr (tt, c')
                   end).

(** ** What a handler hands back to the framework *)

Inductive Response (A : Type) :=
  | Returned (body : A)                              (* 200, the body as JSON *)
  | ReturnedMessage (message : string)               (* 200, {"message": ...} *)
  | ReturnedError (error : string)                   (* 200, {"error": ...} *)
  | HTTPException (status_code : Z) (detail : string)
  | Uncaught (e : exn).                              (* escapes the handler *)
Arguments Returned {A} body.
Arguments ReturnedMessage {A} message.
Arguments ReturnedError {A} error.
Arguments HTTPException {A} status_code detail.
Arguments Uncaught {A} e.

(** The status line the client sees. *)
Definition status_code_of {A} (r : Response A) : Z :=
  match r with
  | Returned _ | ReturnedMessage _ | ReturnedError _ => 200
  | HTTPException s _ => s
  | Uncaught _ => 500
  end.

(** [try: body  except Exception as e: handler(e)] around store calls. *)
Definition try_except {A R} (body : M A) (on_success : A -> Response R)
    (handler : exn -> Response R) : World -> Response R * World :=
  fun w => match body w with
           | (inr a, w') => (on_success a, w')
           | (inl e, w') => (handler e, w')
           end.

(** ** JWT auth *)

(** The claims this module puts in or reads from a token. *)
Record Claims := mkClaims {
  sub : option string;
  exp : option Z            (* NumericDate, seconds since the epoch *)
}.

(** A compact JWS is kept symbolic: the claims, the key that signed them and
    the algorithm of its header. *)
Inductive Token := Signed (claims : Claims) (key : string) (alg : string).

(** The value of the [Authorization] header: ordinary text holding no token
    of the above kind, or the text ["Bearer "] followed by a token. *)
Inductive Authorization :=
  | Plain (text : string)
  | Bearer (token : Token).

Inductive JWTError := InvalidToken | InvalidAlgorithm | BadSignature | ExpiredSignature.

(** [jwt.encode(claims, key, algorithm=algorithm)] *)
Definition jwt_encode (claims : Claims) (key algorithm : string) : Token :=
  Signed claims key algorithm.

(** [jwt.decode(token, key, algorithms=algorithms)] at clock [utcnow]
    (whole seconds): the algorithm must be allowed, the signature must verify
    under [key], and a present [exp] must not lie before the clock. *)
Definition jwt_decode (token : Token) (key : string) (algorithms : list string)
    (utcnow : Z) : JWTError + Claims :=
  match token with
  | Signed claims key' alg =>
      if negb (existsb (String.eqb alg) algorithms) then inl InvalidAlgorithm
      else if negb (key' =? key)%string then inl BadSignature
      else match exp claims with
           | Some e => if e <? utcnow then inl ExpiredSignature else inr claims
           | None => inr claims
           end
  end.

Section Auth.
(** [os.environ.get("JWT_SECRET_KEY", "brewhaven-dev-secret-key")] *)
Variable JWT_SECRET_KEY : string.

(** [create_access_token(data, expires_delta)]; durations are in seconds,
    and [expires_delta or ...] takes the default for [None] and for a zero
    duration alike. *)
Definition create_access_token (data : Claims) (expires_delta : option Z)
    (utcnow : Z) : Token :=
  let delta := match expires_delta with
               | Some d => if d =? 0 then ACCESS_TOKEN_EXPIRE_MINUTES * 60 else d
               | None => ACCESS_TOKEN_EXPIRE_MINUTES * 60
               end in
  let expire := utcnow + delta in
  let to_encode := mkClaims (sub data) (Some expire) in
  jwt_encode to_encode JWT_SECRET_KEY JWT_ALGORITHM.

Definition get_current_user (authorization : option Authorization)
    (utcnow : Z) : Response string :=
  match authorization with
  | None => HTTPException 401 "Not authenticated"
  | Some (Plain text) =>
      if (text =? "")%string || negb (String.prefix "Bearer " text)
      then HTTPException 401 "Not authenticated"
      else HTTPException 401 "Invalid or expired token"
  | Some (Bearer token) =>
      match jwt_decode token JWT_SECRET_KEY [JWT_ALGORITHM] utcnow with
      | inr payload =>
          match sub payload with
          | None => HTTPException 401 "Invalid token payload"
          | Some username => Returned username
          end
      | inl _ => HTTPException 401 "Invalid or expired token"
      end
  end.

(** The body of a successful login: [access_token] and [token_type]. *)
Definition auth_login (body : LoginRequest) (utcnow : Z)
  : Response (Token * string) :=
  if negb (username body =? DEMO_USERNAME)%string
     || negb (password body =? DEMO_PASSWORD)%string
  then HTTPException 401 "Invalid credentials"
  else
    let token := create_access_token (mkClaims (Some (username body)) None)
                   None utcnow in
    Returned (token, "bearer").
End Auth.

(** ** Catalog routes *)

(** [if category:] is false for [None] and for the empty string. *)
Definition list_products (category : option string)
  : World -> Response (list Product) * World :=
  fun w =>
    if unset Products w then (Returned [], w)
    else
      try_except
        (match category with
         | Some (String a s as cat) =>
             query_items Products
               (fun c => match p_category c with
                         | Some k => (k =? cat)%string
                         | None => false
                         end)
         | _ => query_items Products (fun _ => true)
         end)
        Returned
        (fun _ => Returned []) w.

(** Cosmos [CONTAINS(s, q)]: [q] occurs in [s]. *)
Fixpoint CONTAINS (s q : string) : bool :=
  String.prefix q s
  || match s with
     | EmptyString => false
     | String _ s' => CONTAINS s' q
     end.

Definition search_products (q : string)
  : World -> Response (list Product) * World :=
  fun w =>
    if unset Products w then (Returned [], w)
    else
      try_except
        (query_items Products
           (fun c => CONTAINS (p_name c) q
                     || match p_category c with
                        | Some k => CONTAINS k q
                        | None => false
                        end))
        Returned
        (fun _ => Returned []) w.

(** A raised [HTTPException] is no [CosmosHttpResponseError], so the 404 of
    the [try] body passes through the [except] clause; any store error of
    another class escapes the handler. *)
Definition get_product (product_id : string)
  : World -> Response Product * World :=
  fun w =>
    if unset Products w then (HTTPException 503 "Database not available", w)
    else
      try_except
        (query_items Products (fun c => (p_id c =? product_id)%string))
        (fun items => match items with
                      | item :: _ => Returned item
                      | [] => HTTPException 404 "Product not found"
                      end)
        (fun e => if is_CosmosHttpResponseError e
                  then HTTPException 404 "Product not found"
                  else Uncaught e) w.

Definition option_string_eqb (x y : option string) : bool :=
  match x, y with
  | Some a, Some b => (a =? b)%string
  | None, None => true
  | _, _ => false
  end.

(** [SELECT DISTINCT c.category FROM c]: one row per distinct value, first
    occurrence first; a document without the key yields a row without it. *)
Fixpoint distinct (l : list (option string)) : list (option string) :=
  match l with
  | [] => []
  | x :: rest => x :: filter (fun y => negb (option_string_eqb x y)) (distinct rest)
  end.

(** [[item["category"] for item in items]]: a row without the key raises
    [KeyError]. *)
Fixpoint category_column (items : list (option string)) : M (list string) :=
  match items with
  | [] => ret []
  | Some k :: rest => ks <- category_column rest ;; ret (k :: ks)
  | None :: _ => raise (KeyError "'category'")
  end.

Definition get_categories : World -> Response (list string) * World :=
  fun w =>
    if unset Products w then (Returned [], w)
    else
      try_except
        (items <- call Products (fun c => inr (distinct (map p_category c), c)) ;;
         category_column items)
        Returned
        (fun _ => Returned []) w.

(** ** Cart routes *)

Definition owned_by (user_id : string) (c : CartLine) : bool :=
  (cl_user_id c =? user_id)%string.

Definition line_of (user_id product_id : string) (c : CartLine) : bool :=
  (cl_user_id c =? user_id)%string && (cl_product_id c =? product_id)%string.

(** The dict [get_cart] appends for a cart document and its product. *)
Definition enrich (product : Product) (item : CartLine) : EnrichedLine :=
  {| e_id := p_id product;
     e_name := p_name product;
     e_price := p_price product;
     e_quantity := cl_quantity item;
     e_image := match p_image product with
                | Some i => i
                | None => "☕"
                end;
     e_category := match p_category product with
                   | Some k => k
                   | None => "Menu"
                   end |}.

(** The loop of [get_cart]: one product query per cart document; a document
    without product is skipped. *)
Fixpoint get_cart_loop (items : list CartLine) (enriched_cart : list EnrichedLine)
  : M (list EnrichedLine) :=
  match items with
  | [] => ret enriched_cart
  | item :: rest =>
      product_items <-
        query_items Products (fun c => (p_id c =? cl_product_id item)%string) ;;
      match product_items with
      | [] => get_cart_loop rest enriched_cart
      | product :: _ => get_cart_loop rest (enriched_cart ++ [enrich product item])
      end
  end.

Definition get_cart (current_user : string)
  : World -> Response (list EnrichedLine) * World :=
  fun w =>
    if unset Cart w || unset Products w then (Returned [], w)
    else
      try_except
        (items <- query_items Cart (owned_by DEFAULT_USER) ;;
         get_cart_loop items [])
        Returned
        (fun e => ReturnedError (str e)) w.

Definition set_quantity (c : CartLine) (quantity : Z) : CartLine :=
  mkCartLine (cl_id c) (cl_user_id c) (cl_product_id c) quantity.

Definition add_to_cart (item : CartItem) (current_user : string) (uuid4 : string)
  : World -> Response unit * World :=
  fun w =>
    if unset Cart w then (ReturnedError "Database not available", w)
    else
      try_except
        (existing <- query_items Cart (line_of DEFAULT_USER (item_product_id item)) ;;
         match existing with
         | cart_item :: _ =>
             upsert_item Cart (set_quantity cart_item (item_quantity item))
         | [] =>
             create_item Cart
               {| cl_id := uuid4;
                  cl_user_id := DEFAULT_USER;
                  cl_product_id := item_product_id item;
                  cl_quantity := item_quantity item |}
         end)
        (fun _ => ReturnedMessage "Saved successfully")
        (fun e => ReturnedError (str e)) w.

(** [for item in items: cart_container.delete_item(item["id"], partition_key=DEFAULT_USER)] *)
Fixpoint delete_each (items : list CartLine) : M unit :=
  match items with
  | [] => ret tt
  | item :: rest => delete_item Cart (cl_id item) DEFAULT_USER ;;; delete_each rest
  end.

Definition remove_from_cart (product_id : string) (current_user : string)
  : World -> Response unit * World :=
  fun w =>
    if unset Cart w then (ReturnedError "Database not available", w)
    else
      try_except
        (items <- query_items Cart (line_of DEFAULT_USER product_id) ;;
         delete_each items)
        (fun _ => ReturnedMessage "Removed successfully")
        (fun e => ReturnedError (str e)) w.

(** ** Order routes *)

Definition snapshot (i : CartLine) : OrderItem :=
  {| oi_product_id := cl_product_id i; oi_quantity := cl_quantity i |}.

Definition create_order (current_user : string) (uuid4 : string) (utcnow : string)
  : World -> Response Order * World :=
  fun w =>
    if unset Orders w || unset Cart w then (ReturnedError "Database not available", w)
    else
      try_except
        (cart_items <- query_items Cart (owned_by DEFAULT_USER) ;;
         let order := {| o_id := uuid4;
                         o_user_id := DEFAULT_USER;
                         o_items := map snapshot cart_items;
                         o_status := "confirmed";
                         o_created_at := utcnow |} in
         create_item Orders order ;;;
         delete_each cart_items ;;;
         ret order)
        Returned
        (fun e => ReturnedError (str e)) w.

Definition get_orders (current_user : string)
  : World -> Response (list Order) * World :=
  fun w =>
    if unset Orders w then (Returned [], w)
    else
      try_except
        (query_items Orders (fun c => (o_user_id c =? DEFAULT_USER)%string))
        Returned
        (fun _ => Returned []) w.

(** ** Routes behind the auth gate

    [Depends(get_current_user)] runs first; its [HTTPException] is the
    response and the handler does not run. *)

Definition guarded {R} (JWT_SECRET_KEY : string)
    (authorization : option Authorization) (clock : Z)
    (handler : string -> World -> Response R * World)
  : World -> Response R * World :=
  fun w =>
    match get_current_user JWT_SECRET_KEY authorization clock with
    | Returned current_user => handler current_user w
    | ReturnedMessage m => (ReturnedMessage m, w)
    | ReturnedError m => (ReturnedError m, w)
    | HTTPException s d => (HTTPException s d, w)
    | Uncaught e => (Uncaught e, w)
    end.

(** ** Seeding *)

(** The local list [products] of [seed_products]. *)
Definition seeded_products : list Product :=
  [ mkProduct "1" "Espresso Shot"
      "Rich, concentrated single shot of espresso brewed with freshly ground beans."
      (Some "Coffee") (275 # 100) 80 (Some "☕");
    mkProduct "2" "Cappuccino"
      "Double espresso with silky steamed milk and a cloud of microfoam."
      (Some "Coffee") (425 # 100) 60 (Some "🫖");
    mkProduct "3" "Café Latte"
      "Smooth espresso balanced with plenty of steamed milk and a light foam cap."
      (Some "Coffee") (445 # 100) 60 (Some "🥛");
    mkProduct "4" "Mocha Latte"
      "Espresso, steamed milk, and rich chocolate syrup topped with whipped cream."
      (Some "Specialty Drinks") (495 # 100) 50 (Some "🍫");
    mkProduct "5" "Iced Caramel Latte"
      "Chilled espresso over ice with milk and caramel drizzle."
      (Some "Specialty Drinks") (495 # 100) 55 (Some "🧋");
    mkProduct "6" "Americano"
      "Espresso topped with hot water for a smooth, long coffee."
      (Some "Coffee") (325 # 100) 70 (Some "☕");
    mkProduct "7" "Butter Croissant"
      "Flaky, buttery croissant baked fresh every morning."
      (Some "Pastry") (350 # 100) 40 (Some "🥐");
    mkProduct "8" "Chocolate Croissant"
      "Classic croissant filled with dark chocolate."
      (Some "Pastry") (395 # 100) 35 (Some "🥐");
    mkProduct "9" "Blueberry Muffin"
      "Soft muffin with juicy blueberries and a crumb topping."
      (Some "Pastry") (325 # 100) 45 (Some "🫐");
    mkProduct "10" "Vanilla Bean Ice Cream"
      "Creamy vanilla ice cream served in a cup."
      (Some "Dessert") (375 # 100) 30 (Some "🍨");
    mkProduct "11" "Chocolate Fudge Ice Cream"
      "Chocolate ice cream with fudge swirls."
      (Some "Dessert") (395 # 100) 30 (Some "🍨");
    mkProduct "12" "Matcha Latte"
      "Ceremonial-grade matcha whisked with steamed milk."
      (Some "Specialty Drinks") (495 # 100) 40 (Some "🍵");
    mkProduct "13" "Hot Chocolate"
      "Steamed milk with cocoa and whipped cream on top."
      (Some "Specialty Drinks") (395 # 100) 50 (Some "🍫") ].

(** [isinstance(e, exceptions.CosmosResourceExistsError)] *)
Definition is_CosmosResourceExistsError (e : exn) : bool :=
  match e with
  | CosmosResourceExistsError _ => true
  | _ => false
  end.

(** The loop of [seed_products]: a conflict is passed over, any other
    exception leaves the loop and the function. *)
Fixpoint seed_loop (products : list Product) : M unit :=
  match products with
  | [] => ret tt
  | p :: rest =>
      fun w =>
        match create_item Products p w with
        | (inr _, w') => seed_loop rest w'
        | (inl e, w') =>
            if is_CosmosResourceExistsError e then seed_loop rest w'
            else (inl e, w')
        end
  end.

Definition seed_products : M unit := seed_loop seeded_products.

(** ** Vocabulary of the properties *)

(** No store call of the coming ones is scheduled to fail. *)
Definition quiet (w : World) : Prop := Forall (fun o => o = None) (faults w).

(** The containers behind the three handles, with no failure scheduled. *)
Definition holds (w : World) (products : option (list Product))
    (cart : option (list CartLine)) (orders : option (list Order)) : Prop :=
  products_container w = products /\ cart_container w = cart
  /\ orders_container w = orders /\ quiet w.

(** The coming store call fails with [e]. *)
Definition next_call_raises (e : exn) (w : World) : Prop :=
  exists rest, faults w = Some e :: rest.

(** The data-model invariant of the cart container: at most one document per
    [(user_id, product_id)]. *)
Definition cart_invariant (cart : list CartLine) : Prop :=
  forall user_id product_id,
    (length (select (line_of user_id product_id) cart) <= 1)%nat.

(** [id] is not in use in partition [pk] of the container. *)
Definition fresh_in {A} `{Document A} (id pk : string) (c : list A) : Prop :=
  forall d, In d c -> partition_key d = pk -> doc_id d <> id.

(** The cart documents and orders of users other than the fixed owner. *)
Definition other_lines (w : World) : option (list CartLine) :=
  option_map (filter (fun c => negb (owned_by DEFAULT_USER c))) (cart_container w).

Definition other_orders (w : World) : option (list Order) :=
  option_map (filter (fun o => negb (o_user_id o =? DEFAULT_USER)%string))
    (orders_container w).

(** [w'] differs from [w] at most in documents of the fixed owner (and in
    the pending failures). *)
Definition frame (w w' : World) : Prop :=
  products_container w' = products_container w
  /\ other_lines w' = other_lines w
  /\ other_orders w' = other_orders w.

(** Whatever the store does, [m] stays within the owner's documents, and
    what it returns satisfies [Q]. *)
Definition framed {A} (m : M A) (Q : A -> Prop) : Prop :=
  forall w, frame w (snd (m w)) /\ (forall a, fst (m w) = inr a -> Q a).

(** [q] occurs in [s]. *)
Definition substring_of (q s : string) : Prop :=
  exists before after, s = (before ++ q ++ after)%string.

(** The three containers hold the same documents in [w'] as in [w]. *)
Definition same_documents (w w' : World) : Prop :=
  products_container w' = products_container w
  /\ cart_container w' = cart_container w
  /\ orders_container w' = orders_container w.

(** Whatever the store does, [m] leaves the documents as they are. *)
Definition reads {A} (m : M A) : Prop :=
  forall w, same_documents w (snd (m w)).

(** The entries of [get_cart]'s answer that come from one cart document:
    one entry, built with the first product of that id, or none. *)
Definition cart_entry (products : list Product) (item : CartLine)
  : list EnrichedLine :=
  match select (fun c => (p_id c =? cl_product_id item)%string) products with
  | [] => []
  | product :: _ => [enrich product item]
  end.

(** What [seed_loop] makes of a products container holding [c]: each
    product whose id is not taken yet is appended. *)
Fixpoint seed_into (c : list Product) (products : list Product) : list Product :=
  match products with
  | [] => c
  | p :: rest => seed_into (if existsb (same_key p) c then c else c ++ [p]) rest
  end.

(** ** Sample stores *)

Definition espresso : Product :=
  mkProduct "1" "Espresso Shot" "Rich, concentrated single shot of espresso."
    (Some "Coffee") (275 # 100) 80 (Some "☕").

Definition cappuccino : Product :=
  mkProduct "2" "Cappuccino" "Double espresso with silky steamed milk."
    (Some "Coffee") (425 # 100) 60 None.

Definition guest_espresso : CartLine := mkCartLine "c1" DEFAULT_USER "1" 2.
Definition guest_cappuccino : CartLine := mkCartLine "c2" DEFAULT_USER "2" 1.
Definition alice_espresso : CartLine := mkCartLine "c3" "alice" "1" 7.
Definition guest_discontinued : CartLine := mkCartLine "c4" DEFAULT_USER "99" 3.
Definition guest_espresso_again : CartLine := mkCartLine "c5" DEFAULT_USER "1" 4.

(** Two lines of the fixed owner and one of another user. *)
Definition cafe : World :=
  mkWorld (Some [espresso; cappuccino])
    (Some [guest_espresso; alice_espresso; guest_cappuccino]) (Some []) [].

(** The fixed owner has nothing in the cart. *)
Definition cafe_before_opening : World :=
  mkWorld (Some [espresso; cappuccino]) (Some [alice_espresso]) (Some []) [].

(** One line of the owner points at a product that is gone. *)
Definition cafe_after_menu_change : World :=
  mkWorld (Some [espresso; cappuccino])
    (Some [guest_discontinued; guest_espresso]) (Some []) [].

(** Two lines of the owner for one product. *)
Definition cafe_with_duplicates : World :=
  mkWorld (Some [espresso; cappuccino])
    (Some [guest_espresso; guest_cappuccino; guest_espresso_again]) (Some []) [].

(** [init_cosmos] returned early. *)
Definition cafe_without_store : World := mkWorld None None None [].

(** The coming store call is answered with an HTTP error by Cosmos. *)
Definition cafe_cosmos_down : World :=
  mkWorld (Some [espresso; cappuccino]) (Some [guest_espresso]) (Some [])
    [Some (CosmosHttpResponseError "Service Unavailable")].

(** The coming store call does not reach Cosmos. *)
Definition cafe_network_down : World :=
  mkWorld (Some [espresso; cappuccino]) (Some [guest_espresso]) (Some [])
    [Some (ServiceRequestError "Connection refused")].

(** The second store call fails. *)
Definition cafe_flaky : World :=
  mkWorld (Some [espresso; cappuccino])
    (Some [guest_espresso; alice_espresso; guest_cappuccino]) (Some [])
    [None; Some (ServiceRequestError "Connection reset")].

(** The third store call fails, with two lines of the owner for one
    product in the cart. *)
Definition cafe_failing_third_call : World :=
  mkWorld (Some [espresso; cappuccino])
    (Some [guest_espresso; guest_cappuccino; guest_espresso_again]) (Some [])
    [None; None; Some (ServiceRequestError "Connection reset")].

(** The fourth store call fails. *)
Definition cafe_failing_fourth_call : World :=
  mkWorld (Some [espresso; cappuccino])
    (Some [guest_espresso; alice_espresso; guest_cappuccino]) (Some [])
    [None; None; None; Some (ServiceRequestError "Connection reset")].

(** Nothing in the catalog yet. *)
Definition cafe_unseeded : World := mkWorld (Some []) (Some []) (Some []) [].

(** Nothing in the catalog yet, and the third store call fails. *)
Definition cafe_unseeded_flaky : World :=
  mkWorld (Some []) (Some []) (Some [])
    [None; None; Some (ServiceRequestError "Connection reset")].

(** * Properties *)

(** ** Lists of documents *)

Section ContainerFacts.
Context {A : Type} `{Document A}.

Lemma has_key_spec (id pk : string) (d : A) :
  has_key id pk d = true <-> doc_key d = (pk, id).
Proof.
  unfold has_key, doc_key. rewrite andb_true_iff, !String.eqb_eq.
  split; [intros [-> ->]; reflexivity | intros E; injection E; auto].
Qed.

Lemma same_key_refl (d : A) : same_key d d = true.
Proof. apply has_key_spec. reflexivity. Qed.

Lemma wf_key_inj (c : list A) (d d' : A) :
  wf_container c -> In d c -> In d' c -> doc_key d = doc_key d' -> d = d'.
Proof.
  unfold wf_container. induction c as [|x c IH]; simpl; [tauto|].
  intros Hnd Hd Hd' E. inversion Hnd as [|? ? Hx Hc]; subst.
  destruct Hd as [<-|Hd], Hd' as [<-|Hd']; auto.
  - exfalso. apply Hx. rewrite E. now apply in_map.
  - exfalso. apply Hx. rewrite <- E. now apply in_map.
Qed.

Lemma wf_filter (f : A -> bool) (c : list A) :
  wf_container c -> wf_container (filter f c).
Proof.
  unfold wf_container. induction c as [|x c IH]; simpl; auto.
  intros Hnd. inversion Hnd as [|? ? Hx Hc]; subst.
  destruct (f x); simpl; auto. constructor; auto.
  intros Hin. apply Hx. apply in_map_iff in Hin as (y & E & Hy).
  apply filter_In in Hy as [Hy _]. rewrite <- E. now apply in_map.
Qed.

Lemma existsb_has_key_false (id pk : string) (c : list A) :
  fresh_in id pk c -> existsb (has_key id pk) c = false.
Proof.
  intros Hf. apply not_true_is_false. intros E.
  apply existsb_exists in E as (d & Hd & Hk).
  apply has_key_spec in Hk. unfold doc_key in Hk. injection Hk as Hp Hi.
  exact (Hf d Hd Hp Hi).
Qed.

Lemma existsb_has_key_true (c : list A) (d : A) :
  In d c -> existsb (has_key (doc_id d) (partition_key d)) c = true.
Proof.
  intros Hd. apply existsb_exists. exists d. split; auto. apply same_key_refl.
Qed.

Lemma wf_app_fresh (c : list A) (d : A) :
  wf_container c -> fresh_in (doc_id d) (partition_key d) c ->
  wf_container (c ++ [d]).
Proof.
  unfold wf_container. intros Hc Hf. rewrite map_app. simpl.
  apply NoDup_app; [assumption | constructor; [simpl; tauto | constructor] |].
  intros k Hk [<-|[]]. apply in_map_iff in Hk as (y & E & Hy).
  unfold doc_key in E. injection E as Hp Hi. exact (Hf y Hy Hp Hi).
Qed.
End ContainerFacts.

(** ** Store calls that go through *)

Lemma quiet_tl (w : World) (fs : list (option exn)) :
  quiet w -> fs = tl (faults w) -> Forall (fun o => o = None) fs.
Proof.
  unfold quiet. intros Hq ->. destruct (faults w); simpl; auto.
  now inversion Hq.
Qed.

Lemma call_quiet {A R} (h : Handle A) (f : list A -> exn + (R * list A))
    (w : World) (c c' : list A) (r : R) :
  contents h w = Some c -> quiet w -> f c = inr (r, c') ->
  call h f w = (inr r, store h c' (set_faults (tl (faults w)) w)).
Proof.
  intros Hc Hq Hf. unfold call. rewrite Hc.
  destruct (faults w) as [|[e|] fs] eqn:E; rewrite ?Hf; try reflexivity.
  unfold quiet in Hq. rewrite E in Hq. inversion Hq; discriminate.
Qed.

Lemma query_cart_quiet (w : World) products cart orders cond :
  holds w products (Some cart) orders ->
  exists w', query_items Cart cond w = (inr (select cond cart), w')
             /\ holds w' products (Some cart) orders.
Proof.
  intros (Hp & Hc & Ho & Hq). eexists. split.
  - unfold query_items. eapply call_quiet; eauto.
  - repeat split; simpl; auto. eapply quiet_tl; eauto.
Qed.

Lemma query_products_quiet (w : World) products cart orders cond :
  holds w (Some products) cart orders ->
  exists w', query_items Products cond w = (inr (select cond products), w')
             /\ holds w' (Some products) cart orders.
Proof.
  intros (Hp & Hc & Ho & Hq). eexists. split.
  - unfold query_items. eapply call_quiet; eauto.
  - repeat split; simpl; auto. eapply quiet_tl; eauto.
Qed.

Lemma delete_cart_quiet (w : World) products cart orders (d : CartLine) :
  holds w products (Some cart) orders -> In d cart ->
  exists w', delete_item Cart (cl_id d) (cl_user_id d) w = (inr tt, w')
             /\ holds w' products
                  (Some (filter (fun x => negb (same_key d x)) cart)) orders.
Proof.
  intros (Hp & Hc & Ho & Hq) Hd. eexists. split.
  - unfold delete_item. eapply call_quiet; eauto.
    unfold delete. change (existsb _ cart)
      with (existsb (has_key (doc_id d) (partition_key d)) cart).
    rewrite (existsb_has_key_true _ _ Hd). reflexivity.
  - repeat split; simpl; auto. eapply quiet_tl; eauto.
Qed.

Lemma create_quiet_cart (w : World) products cart orders (d : CartLine) :
  holds w products (Some cart) orders ->
  fresh_in (cl_id d) (cl_user_id d) cart ->
  exists w', create_item Cart d w = (inr tt, w')
             /\ holds w' products (Some (cart ++ [d])) orders.
Proof.
  intros (Hp & Hc & Ho & Hq) Hf. eexists. split.
  - unfold create_item. eapply call_quiet; eauto.
    unfold create, same_key.
    change (doc_id d) with (cl_id d). change (partition_key d) with (cl_user_id d).
    rewrite (existsb_has_key_false _ _ _ Hf). reflexivity.
  - repeat split; simpl; auto. eapply quiet_tl; eauto.
Qed.

Lemma create_quiet_orders (w : World) products cart orders (d : Order) :
  holds w products cart (Some orders) ->
  fresh_in (o_id d) (o_user_id d) orders ->
  exists w', create_item Orders d w = (inr tt, w')
             /\ holds w' products cart (Some (orders ++ [d])).
Proof.
  intros (Hp & Hc & Ho & Hq) Hf. eexists. split.
  - unfold create_item. eapply call_quiet; eauto.
    unfold create, same_key.
    change (doc_id d) with (o_id d). change (partition_key d) with (o_user_id d).
    rewrite (existsb_has_key_false _ _ _ Hf). reflexivity.
  - repeat split; simpl; auto. eapply quiet_tl; eauto.
Qed.

Lemma upsert_quiet_cart (w : World) products cart orders (d : CartLine) :
  holds w products (Some cart) orders ->
  exists w', upsert_item Cart d w = (inr tt, w')
             /\ holds w' products (Some (upsert d cart)) orders.
Proof.
  intros (Hp & Hc & Ho & Hq). eexists. split.
  - unfold upsert_item. eapply call_quiet; eauto.
  - repeat split; simpl; auto. eapply quiet_tl; eauto.
Qed.

(** Running [m] then [k] when [m] goes through. *)
Lemma bind_ok {A B} (m : M A) (k : A -> M B) (w w' : World) (a : A) :
  m w = (inr a, w') -> bind m k w = k a w'.
Proof. intros E. unfold bind. now rewrite E. Qed.

Lemma bind_raise {A B} (m : M A) (k : A -> M B) (w w' : World) (e : exn) :
  m w = (inl e, w') -> bind m k w = (inl e, w').
Proof. intros E. unfold bind. now rewrite E. Qed.

Lemma unset_false {A} (h : Handle A) (w : World) (c : list A) :
  contents h w = Some c -> unset h w = false.
Proof. intros E. unfold unset. now rewrite E. Qed.

(** ** The deletion loop *)

Lemma filter_filter {A} (f g : A -> bool) (l : list A) :
  filter f (filter g l) = filter (fun x => g x && f x) l.
Proof.
  induction l as [|x l IH]; simpl; auto.
  destruct (g x); simpl; [destruct (f x)|]; now rewrite IH.
Qed.

Lemma filter_all {A} (f : A -> bool) (l : list A) :
  (forall x, In x l -> f x = true) -> filter f l = l.
Proof.
  induction l as [|x l IH]; simpl; intros Hf; auto.
  rewrite (Hf x) by auto. f_equal. apply IH. auto.
Qed.

Lemma filter_none {A} (f : A -> bool) (l : list A) :
  (forall x, In x l -> f x = false) -> filter f l = [].
Proof.
  induction l as [|x l IH]; simpl; intros Hf; auto.
  rewrite (Hf x) by auto. apply IH. auto.
Qed.

Lemma same_partition_ids (u : string) (items : list CartLine) :
  wf_container items -> (forall i, In i items -> cl_user_id i = u) ->
  NoDup (map cl_id items).
Proof.
  unfold wf_container. induction items as [|i items IH]; simpl; intros Hnd Hu.
  - constructor.
  - inversion Hnd as [|? ? Hi Hrest]; subst. constructor; auto.
    intros Hin. apply Hi. apply in_map_iff in Hin as (j & E & Hj).
    apply in_map_iff. exists j. split; auto.
    unfold doc_key. simpl. now rewrite E, (Hu j), (Hu i) by auto.
Qed.

Lemma delete_each_quiet (items : list CartLine) :
  forall w products cart orders,
    holds w products (Some cart) orders ->
    NoDup (map cl_id items) ->
    (forall i, In i items -> In i cart /\ cl_user_id i = DEFAULT_USER) ->
    exists w',
      delete_each items w = (inr tt, w')
      /\ holds w' products
           (Some (filter (fun x => negb (existsb (fun i => same_key i x) items)) cart))
           orders.
Proof.
  induction items as [|i items IH]; intros w products cart orders Hw Hnd Hin.
  - exists w. split; [reflexivity|]. simpl. now rewrite filter_all.
  - inversion Hnd as [|? ? Hi Hrest]; subst.
    destruct (Hin i (or_introl eq_refl)) as [Hic Hiu].
    destruct (delete_cart_quiet _ _ _ _ _ Hw Hic) as (w1 & E1 & Hw1).
    rewrite Hiu in E1.
    destruct (IH w1 products _ orders Hw1 Hrest) as (w2 & E2 & Hw2).
    { intros j Hj. destruct (Hin j (or_intror Hj)) as [Hjc Hju]. split; auto.
      apply filter_In. split; auto. apply negb_true_iff, not_true_is_false.
      intros K. apply has_key_spec in K. unfold doc_key in K.
      injection K as _ K. apply Hi. simpl in K. rewrite <- K. now apply in_map. }
    exists w2. split.
    + simpl. rewrite (bind_ok _ _ _ _ _ E1). exact E2.
    + rewrite filter_filter in Hw2.
      erewrite filter_ext; [exact Hw2|]. intros x. simpl. now rewrite negb_orb.
Qed.

Lemma delete_selected (cond : CartLine -> bool) (w : World) products cart orders :
  holds w products (Some cart) orders -> wf_container cart ->
  (forall x, cond x = true -> cl_user_id x = DEFAULT_USER) ->
  exists w',
    delete_each (select cond cart) w = (inr tt, w')
    /\ holds w' products (Some (filter (fun x => negb (cond x)) cart)) orders.
Proof.
  intros Hw Hwf Hcond.
  destruct (delete_each_quiet (select cond cart) w products cart orders Hw)
    as (w' & E & Hw').
  - apply same_partition_ids with (u := DEFAULT_USER).
    + now apply wf_filter.
    + intros i Hi. apply filter_In in Hi as [_ Hi]. auto.
  - intros i Hi. apply filter_In in Hi as [Hi Hc]. auto.
  - exists w'. split; auto.
    erewrite filter_ext_in; [exact Hw'|]. intros x Hx. simpl. f_equal.
    destruct (cond x) eqn:Ec; symmetry.
    + apply existsb_exists. exists x. split; [now apply filter_In|].
      apply same_key_refl.
    + apply not_true_is_false. intros K. apply existsb_exists in K as (i & Hi & K).
      apply filter_In in Hi as [Hi Hci]. apply has_key_spec in K.
      assert (x = i) by (apply (wf_key_inj cart); auto).
      subst. congruence.
Qed.

Lemma select_rejected {A} (cond : A -> bool) (c : list A) :
  select cond (filter (fun x => negb (cond x)) c) = [].
Proof.
  unfold select. rewrite filter_filter. apply filter_none.
  intros x _. now destruct (cond x).
Qed.

(** ** Orders *)

Lemma create_order_quiet (w : World) products cart orders
    (current_user uuid4 utcnow : string) :
  holds w products (Some cart) (Some orders) ->
  wf_container cart ->
  fresh_in uuid4 DEFAULT_USER orders ->
  let order := {| o_id := uuid4;
                  o_user_id := DEFAULT_USER;
                  o_items := map snapshot (select (owned_by DEFAULT_USER) cart);
                  o_status := "confirmed";
                  o_created_at := utcnow |} in
  exists w',
    create_order current_user uuid4 utcnow w = (Returned order, w')
    /\ holds w' products
         (Some (filter (fun x => negb (owned_by DEFAULT_USER x)) cart))
         (Some (orders ++ [order])).
Proof.
  intros Hw Hwf Hfresh order.
  pose proof Hw as (_ & Hc & Ho & _).
  destruct (query_cart_quiet w _ _ _ (owned_by DEFAULT_USER) Hw) as (w1 & E1 & Hw1).
  destruct (create_quiet_orders w1 _ _ _ order Hw1 Hfresh) as (w2 & E2 & Hw2).
  destruct (delete_selected (owned_by DEFAULT_USER) w2 _ _ _ Hw2 Hwf) as (w3 & E3 & Hw3).
  { intros x Hx. now apply String.eqb_eq in Hx. }
  exists w3. split; [|exact Hw3].
  unfold create_order.
  rewrite (unset_false Orders w _ Ho), (unset_false Cart w _ Hc). simpl orb. cbv iota.
  unfold try_except.
  rewrite (bind_ok _ _ _ _ _ E1). fold order.
  rewrite (bind_ok _ _ _ _ _ E2), (bind_ok _ _ _ _ _ E3). reflexivity.
Qed.

(** C1. With the cart and orders containers set, no store failure and a new
    order id, [create_order] on a cart whose lines for the fixed owner are
    [(p1,2)] then [(p2,1)] returns and stores an order whose items are
    [{product_id:p1, quantity:2}; {product_id:p2, quantity:1}] in that order
    with status ["confirmed"], and leaves the owner without cart lines. *)
Theorem create_order_snapshots_cart (w : World) products cart orders
    (current_user uuid4 utcnow : string) (l1 l2 : CartLine) (p1 p2 : string) :
  holds w products (Some cart) (Some orders) ->
  wf_container cart ->
  fresh_in uuid4 DEFAULT_USER orders ->
  select (owned_by DEFAULT_USER) cart = [l1; l2] ->
  (cl_product_id l1, cl_quantity l1) = (p1, 2) ->
  (cl_product_id l2, cl_quantity l2) = (p2, 1) ->
  exists w' order cart',
    create_order current_user uuid4 utcnow w = (Returned order, w')
    /\ o_items order = [ {| oi_product_id := p1; oi_quantity := 2 |};
                         {| oi_product_id := p2; oi_quantity := 1 |} ]
    /\ o_status order = "confirmed"
    /\ orders_container w' = Some (orders ++ [order])
    /\ cart_container w' = Some cart'
    /\ select (owned_by DEFAULT_USER) cart' = [].
Proof.
  intros Hw Hwf Hfresh Hlines E1 E2.
  destruct (create_order_quiet w _ _ _ current_user uuid4 utcnow Hw Hwf Hfresh)
    as (w' & E & (_ & Hc & Ho & _)).
  rewrite Hlines in E, Ho. simpl map in E, Ho. unfold snapshot in E, Ho.
  injection E1 as Ep1 Eq1. injection E2 as Ep2 Eq2.
  rewrite Ep1, Eq1, Ep2, Eq2 in E, Ho.
  eexists w', _, _. split; [exact E|]. simpl.
  repeat split; try eassumption. apply select_rejected.
Qed.

(** C6. With the cart and orders containers set, no store failure and a new
    order id, [create_order] on a cart holding no line of the fixed owner
    returns and stores an order with no items and status ["confirmed"]. *)
Theorem create_order_empty_cart (w : World) products cart orders
    (current_user uuid4 utcnow : string) :
  holds w products (Some cart) (Some orders) ->
  fresh_in uuid4 DEFAULT_USER orders ->
  select (owned_by DEFAULT_USER) cart = [] ->
  exists w' order,
    create_order current_user uuid4 utcnow w = (Returned order, w')
    /\ o_items order = []
    /\ o_status order = "confirmed"
    /\ o_id order = uuid4
    /\ orders_container w' = Some (orders ++ [order])
    /\ cart_container w' = Some cart.
Proof.
  intros Hw Hfresh Hempty.
  pose proof Hw as (_ & Hc & Ho & _).
  destruct (query_cart_quiet w _ _ _ (owned_by DEFAULT_USER) Hw) as (w1 & E1 & Hw1).
  rewrite Hempty in E1.
  destruct (create_quiet_orders w1 _ _ _
              (mkOrder uuid4 DEFAULT_USER [] "confirmed" utcnow) Hw1 Hfresh)
    as (w2 & E2 & (_ & Hc2 & Ho2 & _)).
  exists w2, (mkOrder uuid4 DEFAULT_USER [] "confirmed" utcnow).
  repeat split; try assumption.
  unfold create_order.
  rewrite (unset_false Orders w _ Ho), (unset_false Cart w _ Hc). simpl orb. cbv iota.
  unfold try_except.
  rewrite (bind_ok _ _ _ _ _ E1). simpl map.
  rewrite (bind_ok _ _ _ _ _ E2). reflexivity.
Qed.

(** ** Cart *)

Lemma line_of_owner (user_id product_id : string) (x : CartLine) :
  line_of user_id product_id x = true -> cl_user_id x = user_id.
Proof.
  unfold line_of. intros E. apply andb_true_iff in E as [E _].
  now apply String.eqb_eq.
Qed.

(** C7. With the cart container set and no store failure,
    [remove_from_cart] answers with the success message and leaves in the
    container exactly the documents that do not match the fixed owner and
    the product id: all matching ones are gone, and when none matched the
    container is what it was. *)
Theorem remove_from_cart_deletes_all_matches (w : World) products cart orders
    (product_id current_user : string) :
  holds w products (Some cart) orders ->
  wf_container cart ->
  exists w' cart',
    remove_from_cart product_id current_user w
      = (ReturnedMessage "Removed successfully", w')
    /\ holds w' products (Some cart') orders
    /\ cart' = filter (fun x => negb (line_of DEFAULT_USER product_id x)) cart
    /\ select (line_of DEFAULT_USER product_id) cart' = []
    /\ (select (line_of DEFAULT_USER product_id) cart = [] -> cart' = cart).
Proof.
  intros Hw Hwf.
  pose proof Hw as (_ & Hc & _ & _).
  destruct (query_cart_quiet w _ _ _ (line_of DEFAULT_USER product_id) Hw)
    as (w1 & E1 & Hw1).
  destruct (delete_selected (line_of DEFAULT_USER product_id) w1 _ _ _ Hw1 Hwf)
    as (w2 & E2 & Hw2).
  { intros x. apply line_of_owner. }
  exists w2, (filter (fun x => negb (line_of DEFAULT_USER product_id x)) cart).
  split; [|split; [exact Hw2|split; [reflexivity|split]]].
  - unfold remove_from_cart. rewrite (unset_false Cart w _ Hc).
    unfold try_except. rewrite (bind_ok _ _ _ _ _ E1), E2. reflexivity.
  - apply select_rejected.
  - intros Hnone. apply filter_all. intros x Hx.
    destruct (line_of DEFAULT_USER product_id x) eqn:E; auto.
    assert (In x (select (line_of DEFAULT_USER product_id) cart))
      by (apply filter_In; auto).
    rewrite Hnone in H. destruct H.
Qed.

Lemma select_map_preserving {A} (cond : A -> bool) (f : A -> A) (c : list A) :
  (forall x, In x c -> cond (f x) = cond x) ->
  select cond (map f c) = map f (select cond c).
Proof.
  unfold select. induction c as [|x c IH]; simpl; intros Hf; auto.
  rewrite Hf by auto. destruct (cond x); simpl; rewrite IH; auto.
Qed.

(** Overwriting a stored line: under key uniqueness only that line changes. *)
Lemma upsert_stored (cart : list CartLine) (x : CartLine) (q : Z) :
  wf_container cart -> In x cart ->
  upsert (set_quantity x q) cart
  = map (fun d => if same_key x d then set_quantity x q else d) cart
  /\ wf_container (upsert (set_quantity x q) cart).
Proof.
  intros Hwf Hx.
  assert (E : upsert (set_quantity x q) cart
              = map (fun d => if same_key x d then set_quantity x q else d) cart).
  { unfold upsert. change (same_key (set_quantity x q)) with (same_key x).
    unfold same_key at 1. now rewrite (existsb_has_key_true _ _ Hx). }
  rewrite E. split; [reflexivity|].
  unfold wf_container. rewrite map_map.
  erewrite map_ext; [exact Hwf|].
  intros d. simpl. destruct (same_key x d) eqn:K; auto.
  apply has_key_spec in K. rewrite K. reflexivity.
Qed.

Lemma map_overwrite_head (x : CartLine) (q : Z) rest :
  wf_container (x :: rest) ->
  map (fun d => if same_key x d then set_quantity x q else d) (x :: rest)
  = set_quantity x q :: rest.
Proof.
  intros Hwf. simpl. rewrite same_key_refl. f_equal.
  rewrite <- (map_id rest) at 2. apply map_ext_in. intros d Hd.
  destruct (same_key x d) eqn:E; auto. exfalso.
  apply has_key_spec in E.
  assert (d = x) by (apply (wf_key_inj (x :: rest)); simpl; auto).
  subst d. inversion Hwf as [|? ? Hn _]. apply Hn. now apply in_map.
Qed.

Lemma map_overwrite_other (x : CartLine) (q : Z) (cart l : list CartLine) :
  wf_container cart -> In x cart -> incl l cart -> ~ In x l ->
  map (fun d => if same_key x d then set_quantity x q else d) l = l.
Proof.
  intros Hwf Hx Hl Hnx. rewrite <- (map_id l) at 2. apply map_ext_in.
  intros d Hd. destruct (same_key x d) eqn:E; auto. exfalso.
  apply has_key_spec in E.
  assert (d = x) by (apply (wf_key_inj cart); auto).
  now subst d.
Qed.

(** What a call of [add_to_cart] that goes through does to the container:
    the first stored line of the fixed owner for the product gets the new
    quantity, or, when there is none, a new line is appended; the lines of
    every other (user, product) pair are as before. *)
Lemma add_to_cart_quiet (w : World) products cart orders
    (item : CartItem) (current_user uuid4 : string) :
  holds w products (Some cart) orders ->
  wf_container cart ->
  (select (line_of DEFAULT_USER (item_product_id item)) cart = [] ->
   fresh_in uuid4 DEFAULT_USER cart) ->
  exists w' cart',
    add_to_cart item current_user uuid4 w = (ReturnedMessage "Saved successfully", w')
    /\ holds w' products (Some cart') orders
    /\ wf_container cart'
    /\ select (line_of DEFAULT_USER (item_product_id item)) cart'
       = match select (line_of DEFAULT_USER (item_product_id item)) cart with
         | x :: rest => set_quantity x (item_quantity item) :: rest
         | [] => [mkCartLine uuid4 DEFAULT_USER (item_product_id item)
                    (item_quantity item)]
         end
    /\ (forall u p, (u, p) <> (DEFAULT_USER, item_product_id item) ->
        select (line_of u p) cart' = select (line_of u p) cart).
Proof.
  intros Hw Hwf Hfresh.
  pose proof Hw as (_ & Hc & _ & _).
  set (pid := item_product_id item) in *. set (q := item_quantity item).
  destruct (query_cart_quiet w _ _ _ (line_of DEFAULT_USER pid) Hw)
    as (w1 & E1 & Hw1).
  assert (Hrun : forall body w2,
             body w1 = (inr tt, w2) ->
             (match select (line_of DEFAULT_USER pid) cart with
              | cart_item :: _ => upsert_item Cart (set_quantity cart_item q)
              | [] => create_item Cart (mkCartLine uuid4 DEFAULT_USER pid q)
              end) = body ->
             add_to_cart item current_user uuid4 w
             = (ReturnedMessage "Saved successfully", w2)).
  { intros body w2 Eb <-. unfold add_to_cart. rewrite (unset_false Cart w _ Hc).
    unfold try_except. fold pid q. rewrite (bind_ok _ _ _ _ _ E1), Eb. reflexivity. }
  destruct (select (line_of DEFAULT_USER pid) cart) as [|x rest] eqn:Esel.
  - (* no line yet: create *)
    set (new := mkCartLine uuid4 DEFAULT_USER pid q).
    destruct (create_quiet_cart w1 _ _ _ new Hw1 (Hfresh eq_refl)) as (w2 & E2 & Hw2).
    exists w2, (cart ++ [new]).
    split; [eapply Hrun; eauto|]. split; [exact Hw2|]. split; [|split].
    + apply wf_app_fresh; auto; apply (Hfresh eq_refl).
    + unfold select in *. rewrite filter_app, Esel. simpl.
      unfold line_of. simpl. now rewrite !String.eqb_refl.
    + intros u p Hne. unfold select. rewrite filter_app. simpl.
      assert (K : line_of u p new = false); [|now rewrite K, app_nil_r].
      apply not_true_is_false. intros K. unfold line_of, new in K.
      cbn [cl_user_id cl_product_id] in K.
      apply andb_true_iff in K as [U P]. apply String.eqb_eq in U, P.
      apply Hne. congruence.
  - (* a stored line: overwrite *)
    assert (Hx : In x cart /\ line_of DEFAULT_USER pid x = true).
    { apply filter_In. unfold select in Esel. rewrite Esel. simpl; auto. }
    destruct Hx as [Hx Hxl].
    destruct (upsert_quiet_cart w1 _ _ _ (set_quantity x q) Hw1) as (w2 & E2 & Hw2).
    destruct (upsert_stored cart x q Hwf Hx) as [Eup Hwf'].
    exists w2, (upsert (set_quantity x q) cart).
    split; [eapply Hrun; eauto|]. split; [exact Hw2|]. split; [exact Hwf'|].
    assert (Hsel : forall u p,
               select (line_of u p) (upsert (set_quantity x q) cart)
               = map (fun d => if same_key x d then set_quantity x q else d)
                   (select (line_of u p) cart)).
    { intros u p. rewrite Eup. apply select_map_preserving.
      intros d Hd. destruct (same_key x d) eqn:K; auto.
      apply has_key_spec in K.
      assert (d = x) by (apply (wf_key_inj cart); auto).
      subst d. reflexivity. }
    split.
    + rewrite Hsel, Esel. apply map_overwrite_head.
      rewrite <- Esel. now apply wf_filter.
    + intros u p Hne. rewrite Hsel.
      apply (map_overwrite_other x q cart); auto.
      * intros d Hd. now apply filter_In in Hd.
      * intros Hin. apply filter_In in Hin as [_ Hin].
        unfold line_of in Hxl, Hin.
        apply andb_true_iff in Hxl as [U1 P1]. apply andb_true_iff in Hin as [U2 P2].
        apply String.eqb_eq in U1, P1, U2, P2. apply Hne. congruence.
Qed.

(** One call on a container that satisfies the invariant. *)
Lemma add_to_cart_invariant (w : World) products cart orders
    (item : CartItem) (current_user uuid4 : string) :
  holds w products (Some cart) orders ->
  wf_container cart ->
  cart_invariant cart ->
  (select (line_of DEFAULT_USER (item_product_id item)) cart = [] ->
   fresh_in uuid4 DEFAULT_USER cart) ->
  exists w' cart' line,
    add_to_cart item current_user uuid4 w = (ReturnedMessage "Saved successfully", w')
    /\ holds w' products (Some cart') orders
    /\ wf_container cart'
    /\ cart_invariant cart'
    /\ select (line_of DEFAULT_USER (item_product_id item)) cart' = [line]
    /\ cl_quantity line = item_quantity item.
Proof.
  intros Hw Hwf Hinv Hfresh.
  destruct (add_to_cart_quiet w _ _ _ item current_user uuid4 Hw Hwf Hfresh)
    as (w' & cart' & E & Hw' & Hwf' & Hsel & Hother).
  pose proof (Hinv DEFAULT_USER (item_product_id item)) as Hlen.
  assert (Hone : exists line,
             select (line_of DEFAULT_USER (item_product_id item)) cart' = [line]
             /\ cl_quantity line = item_quantity item).
  { rewrite Hsel.
    destruct (select (line_of DEFAULT_USER (item_product_id item)) cart)
      as [|x [|y rest]]; simpl in Hlen; try lia; eexists; split; reflexivity. }
  destruct Hone as (line & Hline & Hq).
  exists w', cart', line.
  split; [exact E|]. split; [exact Hw'|]. split; [exact Hwf'|].
  split; [|split; assumption].
  intros u p.
  destruct (string_dec u DEFAULT_USER) as [->|Hu];
    [destruct (string_dec p (item_product_id item)) as [->|Hp]|].
  - rewrite Hline. simpl. lia.
  - rewrite Hother by congruence. apply Hinv.
  - rewrite Hother by congruence. apply Hinv.
Qed.

(** C2. With the cart container set, no store failure and key uniqueness in
    the container, [add_to_cart] with quantity 3 followed by [add_to_cart]
    with quantity 5 for the same product leaves a first line of the fixed
    owner for that product whose quantity is 5; when the container started
    with at most one line per (user, product) it is the only such line. *)
Theorem add_to_cart_overwrites_quantity (w : World) products cart orders
    (product_id current_user uuid4 uuid4' : string) :
  holds w products (Some cart) orders ->
  wf_container cart ->
  (select (line_of DEFAULT_USER product_id) cart = [] ->
   fresh_in uuid4 DEFAULT_USER cart) ->
  exists w1 w2 cart2 line rest,
    add_to_cart (mkCartItem product_id 3) current_user uuid4 w
      = (ReturnedMessage "Saved successfully", w1)
    /\ add_to_cart (mkCartItem product_id 5) current_user uuid4' w1
      = (ReturnedMessage "Saved successfully", w2)
    /\ cart_container w2 = Some cart2
    /\ select (line_of DEFAULT_USER product_id) cart2 = line :: rest
    /\ cl_quantity line = 5
    /\ (cart_invariant cart -> rest = []).
Proof.
  intros Hw Hwf Hfresh.
  destruct (add_to_cart_quiet w _ _ _ (mkCartItem product_id 3) current_user uuid4
              Hw Hwf Hfresh)
    as (w1 & cart1 & E1 & Hw1 & Hwf1 & Hsel1 & _).
  cbn [item_product_id item_quantity] in Hsel1.
  destruct (add_to_cart_quiet w1 _ _ _ (mkCartItem product_id 5) current_user uuid4'
              Hw1 Hwf1)
    as (w2 & cart2 & E2 & Hw2 & _ & Hsel2 & _).
  { cbn [item_product_id]. rewrite Hsel1.
    destruct (select (line_of DEFAULT_USER product_id) cart); discriminate. }
  cbn [item_product_id item_quantity] in Hsel2.
  destruct Hw2 as (_ & Hc2 & _ & _).
  rewrite Hsel1 in Hsel2.
  pose proof (fun H : cart_invariant cart => H DEFAULT_USER product_id) as Hlen.
  destruct (select (line_of DEFAULT_USER product_id) cart) as [|x rest];
    eexists w1, w2, cart2, _, _;
    (split; [exact E1|split; [exact E2|split; [exact Hc2|split; [exact Hsel2|]]]]);
    split; try reflexivity; intros Hinv; specialize (Hlen Hinv); simpl in Hlen.
  destruct rest; [reflexivity | simpl in Hlen; lia].
Qed.

(** C3. With the cart container set, no store failure and key uniqueness in
    the container, [add_to_cart] preserves "at most one line per
    (user_id, product_id)" and leaves exactly one line of the fixed owner
    for the product; a second call with the same body again preserves the
    invariant and leaves exactly one such line, holding the quantity of the
    body. *)
Theorem add_to_cart_preserves_invariant (w : World) products cart orders
    (item : CartItem) (current_user uuid4 uuid4' : string) :
  holds w products (Some cart) orders ->
  wf_container cart ->
  cart_invariant cart ->
  (select (line_of DEFAULT_USER (item_product_id item)) cart = [] ->
   fresh_in uuid4 DEFAULT_USER cart) ->
  exists w1 cart1 w2 cart2 line,
    add_to_cart item current_user uuid4 w = (ReturnedMessage "Saved successfully", w1)
    /\ cart_container w1 = Some cart1
    /\ cart_invariant cart1
    /\ length (select (line_of DEFAULT_USER (item_product_id item)) cart1) = 1%nat
    /\ add_to_cart item current_user uuid4' w1
       = (ReturnedMessage "Saved successfully", w2)
    /\ cart_container w2 = Some cart2
    /\ cart_invariant cart2
    /\ select (line_of DEFAULT_USER (item_product_id item)) cart2 = [line]
    /\ cl_quantity line = item_quantity item.
Proof.
  intros Hw Hwf Hinv Hfresh.
  destruct (add_to_cart_invariant w _ _ _ item current_user uuid4 Hw Hwf Hinv Hfresh)
    as (w1 & cart1 & l1 & E1 & Hw1 & Hwf1 & Hinv1 & Hsel1 & _).
  destruct (add_to_cart_invariant w1 _ _ _ item current_user uuid4' Hw1 Hwf1 Hinv1)
    as (w2 & cart2 & l2 & E2 & Hw2 & _ & Hinv2 & Hsel2 & Hq2).
  { rewrite Hsel1. discriminate. }
  destruct Hw1 as (_ & Hc1 & _ & _). destruct Hw2 as (_ & Hc2 & _ & _).
  exists w1, cart1, w2, cart2, l2. rewrite Hsel1. repeat split; auto.
Qed.

(** ** Reading the cart *)

(** The entries one cart document contributes to the answer of [get_cart]. *)
Lemma get_cart_loop_quiet (products : list Product) (items : list CartLine) :
  forall (acc : list EnrichedLine) (w : World) cart orders,
    holds w (Some products) cart orders ->
    exists w',
      get_cart_loop items acc w
      = (inr (acc ++ flat_map
                       (fun item =>
                          match select (fun c => (p_id c =? cl_product_id item)%string)
                                  products with
                          | [] => []
                          | product :: _ => [enrich product item]
                          end) items), w')
      /\ holds w' (Some products) cart orders.
Proof.
  induction items as [|item items IH]; intros acc w cart orders Hw.
  - exists w. simpl. rewrite app_nil_r. auto.
  - destruct (query_products_quiet w _ _ _
                (fun c => (p_id c =? cl_product_id item)%string) Hw)
      as (w1 & E1 & Hw1).
    simpl. rewrite (bind_ok _ _ _ _ _ E1).
    destruct (select _ products) as [|product others].
    + apply IH. exact Hw1.
    + destruct (IH (acc ++ [enrich product item]) w1 cart orders Hw1)
        as (w2 & E2 & Hw2).
      exists w2. split; auto. rewrite E2. simpl. now rewrite <- app_assoc.
Qed.

(** C5. With both containers set and no store failure, [get_cart] answers
    with a list and no error; every entry of the list comes from a cart
    document of the fixed owner and a stored product with that document's
    product id, and carries the product's id, name, price, image and
    category (or the defaults for a product without image or category) and
    the document's quantity; so no entry bears the product id of a cart
    document that has no product, while every document of the owner that
    has one yields an entry. *)
Theorem get_cart_drops_lines_without_product (w : World) products cart orders
    (current_user : string) :
  holds w (Some products) (Some cart) orders ->
  exists w' lines,
    get_cart current_user w = (Returned lines, w')
    /\ holds w' (Some products) (Some cart) orders
    /\ (forall e, In e lines ->
        exists item product,
          In item cart /\ cl_user_id item = DEFAULT_USER
          /\ In product products /\ p_id product = cl_product_id item
          /\ e_id e = p_id product
          /\ e_name e = p_name product
          /\ e_price e = p_price product
          /\ e_quantity e = cl_quantity item
          /\ e_image e = match p_image product with Some i => i | None => "☕" end
          /\ e_category e
             = match p_category product with Some k => k | None => "Menu" end)
    /\ (forall item,
          In item cart ->
          (forall product, In product products -> p_id product <> cl_product_id item) ->
          forall e, In e lines -> e_id e <> cl_product_id item)
    /\ (forall item product,
          In item cart -> cl_user_id item = DEFAULT_USER ->
          In product products -> p_id product = cl_product_id item ->
          exists e, In e lines /\ e_id e = cl_product_id item
                    /\ e_quantity e = cl_quantity item).
Proof.
  intros Hw. pose proof Hw as (Hp & Hc & _ & _).
  destruct (query_cart_quiet w _ _ _ (owned_by DEFAULT_USER) Hw) as (w1 & E1 & Hw1).
  destruct (get_cart_loop_quiet products (select (owned_by DEFAULT_USER) cart)
              [] w1 _ _ Hw1) as (w2 & E2 & Hw2).
  simpl app in E2.
  assert (Hsrc : forall e,
             In e (flat_map
                     (fun item =>
                        match select (fun c => (p_id c =? cl_product_id item)%string)
                                products with
                        | [] => []
                        | product :: _ => [enrich product item]
                        end) (select (owned_by DEFAULT_USER) cart)) ->
             exists item product,
               In item cart /\ cl_user_id item = DEFAULT_USER
               /\ In product products /\ p_id product = cl_product_id item
               /\ e = enrich product item).
  { intros e He. apply in_flat_map in He as (item & Hitem & He).
    apply filter_In in Hitem as [Hitem Hown]. apply String.eqb_eq in Hown.
    destruct (select _ products) as [|product others] eqn:Esel; [destruct He|].
    destruct He as [<-|[]].
    assert (Hprod : In product (select (fun c => (p_id c =? cl_product_id item)%string)
                                  products)) by (rewrite Esel; simpl; auto).
    apply filter_In in Hprod as [Hprod Hid]. apply String.eqb_eq in Hid.
    exists item, product. auto 10. }
  eexists w2, _. split; [|split; [exact Hw2|split; [|split]]].
  - unfold get_cart. rewrite (unset_false Cart w _ Hc), (unset_false Products w _ Hp).
    simpl orb. cbv iota. unfold try_except.
    rewrite (bind_ok _ _ _ _ _ E1), E2. reflexivity.
  - intros e He. destruct (Hsrc e He) as (item & product & H1 & H2 & H3 & H4 & ->).
    exists item, product. simpl. auto 12.
  - intros item Hitem Hnone e He Heq.
    destruct (Hsrc e He) as (item' & product & _ & _ & H3 & _ & ->).
    simpl in Heq. exact (Hnone product H3 Heq).
  - intros item product Hitem Hown Hprod Hid.
    assert (Hsel : In product (select (fun c => (p_id c =? cl_product_id item)%string)
                                 products))
      by (apply filter_In; split; auto; now apply String.eqb_eq).
    destruct (select (fun c => (p_id c =? cl_product_id item)%string) products)
      as [|first others] eqn:Esel; [destruct Hsel|].
    assert (Hfirst : In first (select (fun c => (p_id c =? cl_product_id item)%string)
                                 products)) by (rewrite Esel; simpl; auto).
    apply filter_In in Hfirst as [_ Hfid]. apply String.eqb_eq in Hfid.
    exists (enrich first item). split; [|split; [exact Hfid|reflexivity]].
    apply in_flat_map. exists item. split.
    + apply filter_In. split; auto. now apply String.eqb_eq.
    + rewrite Esel. simpl. auto.
Qed.

(** ** Store calls that fail *)

Lemma call_raises {A R} (h : Handle A) (f : list A -> exn + (R * list A))
    (w : World) (c : list A) (e : exn) (rest : list (option exn)) :
  contents h w = Some c -> faults w = Some e :: rest ->
  call h f w = (inl e, set_faults rest w).
Proof. intros Hc Hf. unfold call. now rewrite Hc, Hf. Qed.

Lemma call_passes {A R} (h : Handle A) (f : list A -> exn + (R * list A))
    (w : World) (c c' : list A) (r : R) (rest : list (option exn)) :
  contents h w = Some c -> faults w = None :: rest -> f c = inr (r, c') ->
  call h f w = (inr r, store h c' (set_faults rest w)).
Proof. intros Hc Hf E. unfold call. now rewrite Hc, Hf, E. Qed.

Lemma get_cart_loop_raises (products : list Product) (e : exn)
    (rest : list (option exn)) (items : list CartLine) :
  forall (k : nat) (acc : list EnrichedLine) (w : World),
    products_container w = Some products ->
    faults w = repeat None k ++ Some e :: rest ->
    (k < length items)%nat ->
    exists w', get_cart_loop items acc w = (inl e, w').
Proof.
  induction items as [|item items IH]; intros k acc w Hp Hf Hk; simpl in Hk; [lia|].
  destruct k as [|k]; simpl in Hf.
  - eexists. simpl. erewrite bind_raise; [reflexivity|].
    unfold query_items. eapply call_raises; eauto.
  - simpl. erewrite bind_ok;
      [|unfold query_items; eapply call_passes; eauto; reflexivity].
    destruct (select _ products); apply IH with (k := k); simpl; auto; lia.
Qed.

(** C10. With both containers set, when one of the store calls [get_cart]
    makes (the cart query or one of the product queries) raises [e], the
    handler returns the object [{"error": str(e)}] with status 200 and no
    list; [list_products], whose single query is the first call, answers the
    same failure with the empty list. *)
Theorem get_cart_store_error_returns_error_object (w : World)
    (products : list Product) (cart : list CartLine) (current_user : string)
    (k : nat) (e : exn) (rest : list (option exn)) :
  products_container w = Some products ->
  cart_container w = Some cart ->
  faults w = repeat None k ++ Some e :: rest ->
  (k <= length (select (owned_by DEFAULT_USER) cart))%nat ->
  exists w',
    get_cart current_user w = (ReturnedError (str e), w')
    /\ status_code_of (fst (get_cart current_user w)) = 200
    /\ (forall lines, fst (get_cart current_user w) <> Returned lines)
    /\ (k = 0%nat ->
        forall category, fst (list_products category w) = Returned []).
Proof.
  intros Hp Hc Hf Hk.
  assert (Hrun : exists w', get_cart current_user w = (ReturnedError (str e), w')).
  { unfold get_cart. rewrite (unset_false Cart w _ Hc), (unset_false Products w _ Hp).
    simpl orb. cbv iota. unfold try_except.
    destruct k as [|k]; simpl in Hf.
    - eexists. erewrite bind_raise; [reflexivity|].
      unfold query_items. eapply call_raises; eauto.
    - erewrite bind_ok;
        [|unfold query_items; eapply call_passes; eauto; reflexivity].
      destruct (get_cart_loop_raises products e rest
                  (select (owned_by DEFAULT_USER) cart) k []
                  (store Cart cart (set_faults (repeat None k ++ Some e :: rest) w)))
        as (w' & E); simpl; auto; try lia.
      exists w'. simpl store in E. now rewrite E. }
  destruct Hrun as (w' & E). exists w'. rewrite E. simpl.
  split; [reflexivity|]. split; [reflexivity|]. split; [discriminate|].
  intros -> category. simpl in Hf.
  unfold list_products. rewrite (unset_false Products w _ Hp). unfold try_except.
  destruct category as [[|a s]|]; unfold query_items;
    erewrite call_raises; eauto.
Qed.

(** ** Catalog reads when the store is away *)

Lemma query_products_raises (w : World) (products : list Product)
    (cond : Product -> bool) (e : exn) :
  products_container w = Some products -> next_call_raises e w ->
  exists w', query_items Products cond w = (inl e, w').
Proof.
  intros Hp (rest & Hf). eexists. unfold query_items.
  eapply call_raises; eauto.
Qed.

(** C4, as the code has it.  [get_product] answers 404 when the query goes
    through and no product has the id, and 503 when the products handle is
    not set; when the handle is set and the query raises a Cosmos HTTP error
    it answers 404 as well.  [list_products], [search_products] and
    [get_categories] answer the empty list when the handle is not set and
    when their query raises any exception. *)
Theorem catalog_reads_without_store (w : World) (product_id q : string)
    (category : option string) :
  (forall products,
      products_container w = Some products -> quiet w ->
      (forall p, In p products -> p_id p <> product_id) ->
      fst (get_product product_id w) = HTTPException 404 "Product not found")
  /\ (products_container w = None ->
      fst (get_product product_id w) = HTTPException 503 "Database not available"
      /\ fst (list_products category w) = Returned []
      /\ fst (search_products q w) = Returned []
      /\ fst (get_categories w) = Returned [])
  /\ (forall products e,
      products_container w = Some products -> next_call_raises e w ->
      (is_CosmosHttpResponseError e = true ->
       fst (get_product product_id w) = HTTPException 404 "Product not found")
      /\ fst (list_products category w) = Returned []
      /\ fst (search_products q w) = Returned []
      /\ fst (get_categories w) = Returned []).
Proof.
  split; [|split].
  - intros products Hp Hq Hnone.
    unfold get_product. rewrite (unset_false Products w _ Hp). unfold try_except.
    unfold query_items. erewrite call_quiet; eauto. simpl.
    rewrite filter_none; [reflexivity|].
    intros p Hin. apply String.eqb_neq. now apply Hnone.
  - intros Hp.
    unfold get_product, list_products, search_products, get_categories, unset.
    simpl contents. rewrite Hp. auto.
  - intros products e Hp Hraise.
    unfold get_product, list_products, search_products, get_categories.
    rewrite (unset_false Products w _ Hp). unfold try_except.
    split; [intros Hcosmos|split; [|split]].
    + destruct (query_products_raises w products
                  (fun c => (p_id c =? product_id)%string) e Hp Hraise) as (w' & ->).
      simpl. now rewrite Hcosmos.
    + destruct category as [[|a s]|];
        match goal with
        | |- context [query_items Products ?c w] =>
            destruct (query_products_raises w products c e Hp Hraise) as (w' & ->)
        end; reflexivity.
    + match goal with
      | |- context [query_items Products ?c w] =>
          destruct (query_products_raises w products c e Hp Hraise) as (w' & ->)
      end; reflexivity.
    + destruct Hraise as (rest & Hf).
      erewrite bind_raise; [reflexivity|]. eapply call_raises; eauto.
Qed.

(** ** Login and the auth gate *)

(** C8. A login with the demo pair returns a token whose [sub] is the
    submitted username and whose [exp] lies 60 minutes after the clock of
    the login; the gate accepts that token up to its expiry and answers 401
    at every later clock; a login with any other pair answers 401
    ["Invalid credentials"]. *)
Theorem login_token_subject_and_expiry (JWT_SECRET_KEY : string)
    (body : LoginRequest) (utcnow : Z) :
  ((username body, password body) = (DEMO_USERNAME, DEMO_PASSWORD) ->
   exists token claims,
     auth_login JWT_SECRET_KEY body utcnow = Returned (token, "bearer")
     /\ token = Signed claims JWT_SECRET_KEY JWT_ALGORITHM
     /\ sub claims = Some (username body)
     /\ exp claims = Some (utcnow + 60 * 60)
     /\ (forall later, utcnow + 60 * 60 < later ->
         get_current_user JWT_SECRET_KEY (Some (Bearer token)) later
         = HTTPException 401 "Invalid or expired token")
     /\ (forall clock, clock <= utcnow + 60 * 60 ->
         get_current_user JWT_SECRET_KEY (Some (Bearer token)) clock
         = Returned (username body)))
  /\ ((username body, password body) <> (DEMO_USERNAME, DEMO_PASSWORD) ->
      auth_login JWT_SECRET_KEY body utcnow = HTTPException 401 "Invalid credentials").
Proof.
  split.
  - intros E. injection E as Eu Ep.
    exists (Signed (mkClaims (Some (username body)) (Some (utcnow + 60 * 60)))
              JWT_SECRET_KEY JWT_ALGORITHM),
           (mkClaims (Some (username body)) (Some (utcnow + 60 * 60))).
    split; [|split; [reflexivity|split; [reflexivity|split; [reflexivity|split]]]].
    + unfold auth_login. rewrite Eu, Ep, !String.eqb_refl. reflexivity.
    + intros later Hlater. unfold get_current_user, jwt_decode.
      cbn [existsb]. rewrite !String.eqb_refl. cbn [orb negb exp].
      apply Z.ltb_lt in Hlater. now rewrite Hlater.
    + intros clock Hclock. unfold get_current_user, jwt_decode.
      cbn [existsb]. rewrite !String.eqb_refl. cbn [orb negb exp].
      assert (K : (utcnow + 60 * 60 <? clock) = false) by (apply Z.ltb_ge; lia).
      now rewrite K.
  - intros Hne. unfold auth_login.
    destruct (String.eqb_spec (username body) DEMO_USERNAME) as [Eu|];
      [|reflexivity].
    destruct (String.eqb_spec (password body) DEMO_PASSWORD) as [Ep|];
      [|reflexivity].
    elim Hne. now rewrite Eu, Ep.
Qed.

(** ** The caller's identity *)

Lemma frame_refl (w : World) : frame w w.
Proof. repeat split. Qed.

Lemma frame_trans (w1 w2 w3 : World) : frame w1 w2 -> frame w2 w3 -> frame w1 w3.
Proof.
  intros (P1 & L1 & O1) (P2 & L2 & O2).
  repeat split; congruence.
Qed.

Lemma framed_ret {A} (a : A) (Q : A -> Prop) : Q a -> framed (ret a) Q.
Proof.
  intros Ha w. split; [apply frame_refl|]. simpl. intros b E.
  injection E as <-. exact Ha.
Qed.

Lemma framed_bind {A B} (m : M A) (k : A -> M B) (Q : A -> Prop) (R : B -> Prop) :
  framed m Q -> (forall a, Q a -> framed (k a) R) -> framed (bind m k) R.
Proof.
  intros Hm Hk w. destruct (Hm w) as [Hf Hq]. unfold bind.
  destruct (m w) as [[e|a] w1]; simpl in *.
  - split; [exact Hf | discriminate].
  - destruct (Hk a (Hq a eq_refl) w1) as [Hf1 Hr].
    split; [eapply frame_trans; eauto | exact Hr].
Qed.

Lemma framed_call_products {R} (f : list Product -> exn + (R * list Product))
    (Q : R -> Prop) :
  (forall c r c', f c = inr (r, c') -> c' = c /\ Q r) ->
  framed (call Products f) Q.
Proof.
  intros Hf w. unfold call. simpl contents.
  destruct (products_container w) as [c|] eqn:Ec;
    [|split; [apply frame_refl | discriminate]].
  destruct (faults w) as [|[e|] fs];
    try (split; [repeat split; auto | discriminate]);
    destruct (f c) as [e|[r c']] eqn:Efc;
    try (split; [repeat split; auto | discriminate]);
    destruct (Hf c r c' Efc) as [-> Hq];
    (split; [repeat split; auto | simpl; intros a E; now injection E as <-]).
Qed.

Lemma framed_call_cart {R} (f : list CartLine -> exn + (R * list CartLine))
    (Q : R -> Prop) :
  (forall c r c',
      f c = inr (r, c') ->
      filter (fun x => negb (owned_by DEFAULT_USER x)) c'
      = filter (fun x => negb (owned_by DEFAULT_USER x)) c /\ Q r) ->
  framed (call Cart f) Q.
Proof.
  intros Hf w. unfold call. simpl contents.
  destruct (cart_container w) as [c|] eqn:Ec;
    [|split; [apply frame_refl | discriminate]].
  assert (Hsame : forall fs, frame w (set_faults fs w)) by (intros; repeat split).
  assert (Hwrite : forall fs r c',
             f c = inr (r, c') -> frame w (store Cart c' (set_faults fs w))).
  { intros fs r c' Efc. destruct (Hf c r c' Efc) as [Hc' _].
    repeat split. unfold other_lines. simpl. now rewrite Ec, Hc'. }
  destruct (faults w) as [|[e|] fs];
    try (split; [apply Hsame | discriminate]);
    destruct (f c) as [e|[r c']] eqn:Efc;
    try (split; [apply Hsame | discriminate]);
    (split; [eapply Hwrite; eauto
            | simpl; intros a E; injection E as <-; now destruct (Hf c r c' Efc)]).
Qed.

Lemma framed_call_orders {R} (f : list Order -> exn + (R * list Order))
    (Q : R -> Prop) :
  (forall c r c',
      f c = inr (r, c') ->
      filter (fun o => negb (o_user_id o =? DEFAULT_USER)%string) c'
      = filter (fun o => negb (o_user_id o =? DEFAULT_USER)%string) c /\ Q r) ->
  framed (call Orders f) Q.
Proof.
  intros Hf w. unfold call. simpl contents.
  destruct (orders_container w) as [c|] eqn:Ec;
    [|split; [apply frame_refl | discriminate]].
  assert (Hsame : forall fs, frame w (set_faults fs w)) by (intros; repeat split).
  assert (Hwrite : forall fs r c',
             f c = inr (r, c') -> frame w (store Orders c' (set_faults fs w))).
  { intros fs r c' Efc. destruct (Hf c r c' Efc) as [Hc' _].
    repeat split. unfold other_orders. simpl. now rewrite Ec, Hc'. }
  destruct (faults w) as [|[e|] fs];
    try (split; [apply Hsame | discriminate]);
    destruct (f c) as [e|[r c']] eqn:Efc;
    try (split; [apply Hsame | discriminate]);
    (split; [eapply Hwrite; eauto
            | simpl; intros a E; injection E as <-; now destruct (Hf c r c' Efc)]).
Qed.

Lemma framed_try_except {A R} (body : M A) (Q : A -> Prop)
    (on_success : A -> Response R) (handler : exn -> Response R) (w : World) :
  framed body Q -> frame w (snd (try_except body on_success handler w)).
Proof.
  intros Hb. destruct (Hb w) as [Hf _]. unfold try_except.
  now destruct (body w) as [[e|a] w'].
Qed.

(** The owner's queries return only documents of the owner. *)
Lemma framed_query_cart (product_id : option string) :
  framed (query_items Cart
            (match product_id with
             | Some pid => line_of DEFAULT_USER pid
             | None => owned_by DEFAULT_USER
             end))
    (Forall (fun x => cl_user_id x = DEFAULT_USER)).
Proof.
  apply framed_call_cart. intros c r c' E. injection E as <- <-.
  split; [reflexivity|]. apply Forall_forall. intros x Hx.
  apply filter_In in Hx as [_ Hx]. destruct product_id.
  - now apply line_of_owner in Hx.
  - now apply String.eqb_eq.
Qed.

Lemma delete_keeps_others (id : string) (c c' : list CartLine) :
  delete id DEFAULT_USER c = inr c' ->
  filter (fun x => negb (owned_by DEFAULT_USER x)) c'
  = filter (fun x => negb (owned_by DEFAULT_USER x)) c.
Proof.
  unfold delete. destruct (existsb _ c); [|discriminate].
  intros E. injection E as <-. rewrite filter_filter.
  apply filter_ext. intros x. unfold has_key, owned_by. simpl.
  destruct (cl_user_id x =? DEFAULT_USER)%string; simpl;
    now rewrite ?andb_false_r.
Qed.

Lemma create_keeps_others (d : CartLine) (c c' : list CartLine) :
  cl_user_id d = DEFAULT_USER -> create d c = inr c' ->
  filter (fun x => negb (owned_by DEFAULT_USER x)) c'
  = filter (fun x => negb (owned_by DEFAULT_USER x)) c.
Proof.
  unfold create. intros Hd. destruct (existsb _ c); [discriminate|].
  intros E. injection E as <-. rewrite filter_app. simpl.
  unfold owned_by at 2. rewrite Hd, String.eqb_refl. simpl. apply app_nil_r.
Qed.

Lemma upsert_keeps_others (d : CartLine) (c : list CartLine) :
  cl_user_id d = DEFAULT_USER ->
  filter (fun x => negb (owned_by DEFAULT_USER x)) (upsert d c)
  = filter (fun x => negb (owned_by DEFAULT_USER x)) c.
Proof.
  intros Hd. unfold upsert. destruct (existsb _ c).
  - induction c as [|x c IH]; simpl; auto.
    destruct (same_key d x) eqn:K.
    + apply has_key_spec in K. unfold doc_key in K. simpl in K.
      injection K as Ku _.
      assert (Hdo : owned_by DEFAULT_USER d = true)
        by (unfold owned_by; rewrite Hd; apply String.eqb_refl).
      assert (Hxo : owned_by DEFAULT_USER x = true)
        by (unfold owned_by; rewrite Ku, Hd; apply String.eqb_refl).
      rewrite Hdo, Hxo. simpl. exact IH.
    + destruct (negb (owned_by DEFAULT_USER x)); now rewrite IH.
  - rewrite filter_app. simpl. unfold owned_by at 2.
    rewrite Hd, String.eqb_refl. simpl. apply app_nil_r.
Qed.

Lemma framed_delete_each (items : list CartLine) :
  framed (delete_each items) (fun _ => True).
Proof.
  induction items as [|item items IH]; simpl.
  - now apply framed_ret.
  - apply framed_bind with (Q := fun _ => True); [|intros _ _; exact IH].
    apply framed_call_cart. intros c r c' E.
    destruct (delete (cl_id item) DEFAULT_USER c) as [e|c1] eqn:Ed; [discriminate|].
    injection E as <- <-. split; auto. eapply delete_keeps_others; eauto.
Qed.

Lemma framed_get_cart_loop (items : list CartLine) :
  forall acc, framed (get_cart_loop items acc) (fun _ => True).
Proof.
  induction items as [|item items IH]; intros acc; simpl.
  - now apply framed_ret.
  - apply framed_bind with (Q := fun _ => True).
    + apply framed_call_products. intros c r c' E. now injection E as <- <-.
    + intros [|product others] _; apply IH.
Qed.

(** No handler changes a document of a user other than the fixed owner,
    whatever the store does. *)
Lemma handlers_keep_other_users (w : World) (current_user : string)
    (item : CartItem) (product_id uuid4 utcnow : string) :
  frame w (snd (get_cart current_user w))
  /\ frame w (snd (add_to_cart item current_user uuid4 w))
  /\ frame w (snd (remove_from_cart product_id current_user w))
  /\ frame w (snd (create_order current_user uuid4 utcnow w))
  /\ frame w (snd (get_orders current_user w)).
Proof.
  split; [|split; [|split; [|split]]].
  - unfold get_cart. destruct (_ || _); [apply frame_refl|].
    apply framed_try_except with (Q := fun _ => True).
    eapply framed_bind; [apply (framed_query_cart None)|].
    intros items _. apply framed_get_cart_loop.
  - unfold add_to_cart. destruct (unset Cart w); [apply frame_refl|].
    apply framed_try_except with (Q := fun _ => True).
    eapply framed_bind; [apply (framed_query_cart (Some (item_product_id item)))|].
    intros [|cart_item others] Hown.
    + apply framed_call_cart. intros c r c' E.
      destruct (create _ c) as [e|c1] eqn:Ec; [discriminate|].
      injection E as <- <-. split; auto. eapply create_keeps_others; eauto.
      reflexivity.
    + apply framed_call_cart. intros c r c' E. injection E as <- <-.
      split; auto. apply upsert_keeps_others. now inversion Hown.
  - unfold remove_from_cart. destruct (unset Cart w); [apply frame_refl|].
    apply framed_try_except with (Q := fun _ => True).
    eapply framed_bind; [apply (framed_query_cart (Some product_id))|].
    intros items _. apply framed_delete_each.
  - unfold create_order. destruct (_ || _); [apply frame_refl|].
    apply framed_try_except with (Q := fun _ => True).
    eapply framed_bind; [apply (framed_query_cart None)|].
    intros items _.
    apply framed_bind with (Q := fun _ => True).
    + apply framed_call_orders. intros c r c' E.
      destruct (create _ c) as [e|c1] eqn:Ec; [discriminate|].
      injection E as <- <-. split; auto.
      unfold create in Ec. destruct (existsb _ c); [discriminate|].
      injection Ec as <-. rewrite filter_app. simpl. apply app_nil_r.
    + intros _ _. eapply framed_bind; [apply framed_delete_each|].
      intros _ _. now apply framed_ret.
  - unfold get_orders. destruct (unset Orders w); [apply frame_refl|].
    apply framed_try_except with (Q := fun _ => True).
    apply framed_call_orders. intros c r c' E. now injection E as <- <-.
Qed.

(** C9. For two Authorization headers the gate accepts, as callers [A] and
    [B], each of the five cart and order routes gives the same response and
    the same resulting store from every state; the handlers give the same
    outcome for any two values of [current_user], and what they write
    stays within the documents of the fixed owner: the products and the
    cart lines and orders of every other user are left as they were. *)
Theorem cart_and_orders_ignore_caller (JWT_SECRET_KEY : string)
    (authA authB : option Authorization) (clock : Z) (A B : string) (w : World)
    (item : CartItem) (product_id uuid4 utcnow : string) :
  get_current_user JWT_SECRET_KEY authA clock = Returned A ->
  get_current_user JWT_SECRET_KEY authB clock = Returned B ->
  guarded JWT_SECRET_KEY authA clock get_cart w
  = guarded JWT_SECRET_KEY authB clock get_cart w
  /\ guarded JWT_SECRET_KEY authA clock
       (fun current_user => add_to_cart item current_user uuid4) w
     = guarded JWT_SECRET_KEY authB clock
         (fun current_user => add_to_cart item current_user uuid4) w
  /\ guarded JWT_SECRET_KEY authA clock (remove_from_cart product_id) w
     = guarded JWT_SECRET_KEY authB clock (remove_from_cart product_id) w
  /\ guarded JWT_SECRET_KEY authA clock
       (fun current_user => create_order current_user uuid4 utcnow) w
     = guarded JWT_SECRET_KEY authB clock
         (fun current_user => create_order current_user uuid4 utcnow) w
  /\ guarded JWT_SECRET_KEY authA clock get_orders w
     = guarded JWT_SECRET_KEY authB clock get_orders w
  /\ get_cart A w = get_cart B w
  /\ add_to_cart item A uuid4 w = add_to_cart item B uuid4 w
  /\ remove_from_cart product_id A w = remove_from_cart product_id B w
  /\ create_order A uuid4 utcnow w = create_order B uuid4 utcnow w
  /\ get_orders A w = get_orders B w
  /\ frame w (snd (get_cart A w))
  /\ frame w (snd (add_to_cart item A uuid4 w))
  /\ frame w (snd (remove_from_cart product_id A w))
  /\ frame w (snd (create_order A uuid4 utcnow w))
  /\ frame w (snd (get_orders A w)).
Proof.
  intros HA HB. unfold guarded. rewrite HA, HB.
  do 10 (split; [reflexivity|]).
  apply handlers_keep_other_users.
Qed.

(** * The properties on the sample stores *)

Ltac sample_store :=
  unfold holds, quiet, wf_container, fresh_in; simpl;
  repeat split; repeat constructor; simpl;
  intuition (subst; simpl in *; discriminate).

Lemma create_order_snapshots_cart_witness :
  exists w' order cart',
    create_order "barista" "order-1" "2024-05-01T09:00:00" cafe = (Returned order, w')
    /\ o_items order = [ {| oi_product_id := "1"; oi_quantity := 2 |};
                         {| oi_product_id := "2"; oi_quantity := 1 |} ]
    /\ o_status order = "confirmed"
    /\ orders_container w' = Some ([] ++ [order])
    /\ cart_container w' = Some cart'
    /\ select (owned_by DEFAULT_USER) cart' = [].
Proof.
  apply (create_order_snapshots_cart cafe (Some [espresso; cappuccino])
           [guest_espresso; alice_espresso; guest_cappuccino] []
           "barista" "order-1" "2024-05-01T09:00:00"
           guest_espresso guest_cappuccino "1" "2");
    try reflexivity; sample_store.
Defined.

Lemma create_order_empty_cart_witness :
  exists w' order,
    create_order "barista" "order-1" "2024-05-01T06:00:00" cafe_before_opening
    = (Returned order, w')
    /\ o_items order = []
    /\ o_status order = "confirmed"
    /\ o_id order = "order-1"
    /\ orders_container w' = Some ([] ++ [order])
    /\ cart_container w' = Some [alice_espresso].
Proof.
  apply (create_order_empty_cart cafe_before_opening (Some [espresso; cappuccino])
           [alice_espresso] [] "barista" "order-1" "2024-05-01T06:00:00");
    try reflexivity; sample_store.
Defined.

Lemma add_to_cart_overwrites_quantity_witness :
  exists w1 w2 cart2 line rest,
    add_to_cart (mkCartItem "2" 3) "barista" "c9" cafe_before_opening
      = (ReturnedMessage "Saved successfully", w1)
    /\ add_to_cart (mkCartItem "2" 5) "barista" "c10" w1
      = (ReturnedMessage "Saved successfully", w2)
    /\ cart_container w2 = Some cart2
    /\ select (line_of DEFAULT_USER "2") cart2 = line :: rest
    /\ cl_quantity line = 5
    /\ (cart_invariant [alice_espresso] -> rest = []).
Proof.
  apply (add_to_cart_overwrites_quantity cafe_before_opening
           (Some [espresso; cappuccino]) [alice_espresso] (Some [])
           "2" "barista" "c9" "c10");
    sample_store.
Defined.

Lemma add_to_cart_preserves_invariant_witness :
  exists w1 cart1 w2 cart2 line,
    add_to_cart (mkCartItem "2" 4) "barista" "c9" cafe_before_opening
      = (ReturnedMessage "Saved successfully", w1)
    /\ cart_container w1 = Some cart1
    /\ cart_invariant cart1
    /\ length (select (line_of DEFAULT_USER "2") cart1) = 1%nat
    /\ add_to_cart (mkCartItem "2" 4) "barista" "c10" w1
       = (ReturnedMessage "Saved successfully", w2)
    /\ cart_container w2 = Some cart2
    /\ cart_invariant cart2
    /\ select (line_of DEFAULT_USER "2") cart2 = [line]
    /\ cl_quantity line = 4.
Proof.
  apply (add_to_cart_preserves_invariant cafe_before_opening
           (Some [espresso; cappuccino]) [alice_espresso] (Some [])
           (mkCartItem "2" 4) "barista" "c9" "c10");
    [sample_store | sample_store | | sample_store].
  intros u p. unfold select. simpl.
  destruct (line_of u p alice_espresso); simpl; lia.
Defined.

Lemma get_cart_drops_lines_without_product_witness :
  exists w' lines,
    get_cart "barista" cafe_after_menu_change = (Returned lines, w')
    /\ lines = [enrich espresso guest_espresso]
    /\ forall e, In e lines -> e_id e <> "99".
Proof.
  destruct (get_cart_drops_lines_without_product cafe_after_menu_change
              [espresso; cappuccino] [guest_discontinued; guest_espresso] (Some [])
              "barista")
    as (w' & lines & E & _ & _ & Hdrop & _); [sample_store|].
  exists w', lines. split; [exact E|]. split.
  - vm_compute in E. now injection E as <- _.
  - apply (Hdrop guest_discontinued); simpl; auto.
    intros product [<-|[<-|[]]]; discriminate.
Defined.

Lemma remove_from_cart_deletes_all_matches_witness :
  exists w' cart',
    remove_from_cart "1" "barista" cafe_with_duplicates
      = (ReturnedMessage "Removed successfully", w')
    /\ holds w' (Some [espresso; cappuccino]) (Some cart') (Some [])
    /\ cart' = [guest_cappuccino]
    /\ select (line_of DEFAULT_USER "1") cart' = []
    /\ (select (line_of DEFAULT_USER "1")
          [guest_espresso; guest_cappuccino; guest_espresso_again] = [] ->
        cart' = [guest_espresso; guest_cappuccino; guest_espresso_again]).
Proof.
  apply (remove_from_cart_deletes_all_matches cafe_with_duplicates
           (Some [espresso; cappuccino])
           [guest_espresso; guest_cappuccino; guest_espresso_again] (Some [])
           "1" "barista");
    sample_store.
Defined.

Lemma catalog_reads_without_store_witness :
  fst (get_product "7" cafe) = HTTPException 404 "Product not found"
  /\ fst (get_product "1" cafe_without_store)
     = HTTPException 503 "Database not available"
  /\ fst (list_products (Some "Coffee") cafe_without_store) = Returned []
  /\ fst (get_product "1" cafe_cosmos_down) = HTTPException 404 "Product not found"
  /\ fst (search_products "Latte" cafe_network_down) = Returned []
  /\ fst (get_categories cafe_network_down) = Returned [].
Proof.
  destruct (catalog_reads_without_store cafe "7" "Latte" (Some "Coffee"))
    as (Hmiss & _ & _).
  destruct (catalog_reads_without_store cafe_without_store "1" "Latte" (Some "Coffee"))
    as (_ & Hunset & _).
  destruct (catalog_reads_without_store cafe_cosmos_down "1" "Latte" (Some "Coffee"))
    as (_ & _ & Hcosmos).
  destruct (catalog_reads_without_store cafe_network_down "1" "Latte" (Some "Coffee"))
    as (_ & _ & Hnet).
  destruct (Hunset eq_refl) as (H503 & Hlist & _).
  destruct (Hcosmos [espresso; cappuccino] (CosmosHttpResponseError "Service Unavailable")
              eq_refl (ex_intro _ [] eq_refl)) as (H404 & _).
  destruct (Hnet [espresso; cappuccino] (ServiceRequestError "Connection refused")
              eq_refl (ex_intro _ [] eq_refl)) as (_ & _ & Hsearch & Hcats).
  split.
  { apply (Hmiss [espresso; cappuccino]); [reflexivity | constructor |].
    intros p [<-|[<-|[]]]; discriminate. }
  split; [exact H503|]. split; [exact Hlist|]. split; [exact (H404 eq_refl)|].
  split; [exact Hsearch | exact Hcats].
Defined.

Lemma login_token_subject_and_expiry_witness :
  (exists token claims,
      auth_login "brewhaven-dev-secret-key" (mkLoginRequest "barista" "coffee123") 1000
      = Returned (token, "bearer")
      /\ token = Signed claims "brewhaven-dev-secret-key" JWT_ALGORITHM
      /\ sub claims = Some "barista"
      /\ exp claims = Some 4600
      /\ get_current_user "brewhaven-dev-secret-key" (Some (Bearer token)) 4601
         = HTTPException 401 "Invalid or expired token"
      /\ get_current_user "brewhaven-dev-secret-key" (Some (Bearer token)) 4600
         = Returned "barista")
  /\ auth_login "brewhaven-dev-secret-key" (mkLoginRequest "barista" "tea") 1000
     = HTTPException 401 "Invalid credentials".
Proof.
  split.
  - destruct (login_token_subject_and_expiry "brewhaven-dev-secret-key"
                (mkLoginRequest "barista" "coffee123") 1000) as (Hok & _).
    destruct (Hok eq_refl) as (token & claims & E & Et & Es & Ee & Hlate & Hin).
    exists token, claims. repeat split; auto.
    + apply Hlate. reflexivity.
    + apply Hin. discriminate.
  - apply (login_token_subject_and_expiry "brewhaven-dev-secret-key"
             (mkLoginRequest "barista" "tea") 1000).
    discriminate.
Defined.

Lemma cart_and_orders_ignore_caller_witness :
  get_cart "barista" cafe = get_cart "manager" cafe
  /\ create_order "barista" "order-1" "2024-05-01T09:00:00" cafe
     = create_order "manager" "order-1" "2024-05-01T09:00:00" cafe.
Proof.
  destruct (cart_and_orders_ignore_caller "k"
              (Some (Bearer (Signed (mkClaims (Some "barista") (Some 4600)) "k" "HS256")))
              (Some (Bearer (Signed (mkClaims (Some "manager") None) "k" "HS256")))
              1000 "barista" "manager" cafe (mkCartItem "1" 2) "1" "order-1"
              "2024-05-01T09:00:00" eq_refl eq_refl)
    as (_ & _ & _ & _ & _ & Hcart & _ & _ & Horder & _).
  split; assumption.
Defined.

Lemma get_cart_store_error_returns_error_object_witness :
  fst (get_cart "barista" cafe_flaky) = ReturnedError "Connection reset"
  /\ fst (get_cart "barista" cafe_cosmos_down) = ReturnedError "Service Unavailable"
  /\ fst (list_products None cafe_cosmos_down) = Returned [].
Proof.
  destruct (get_cart_store_error_returns_error_object cafe_flaky
              [espresso; cappuccino] [guest_espresso; alice_espresso; guest_cappuccino]
              "barista" 1 (ServiceRequestError "Connection reset") [])
    as (w1 & E1 & _); try reflexivity; try (simpl; lia).
  destruct (get_cart_store_error_returns_error_object cafe_cosmos_down
              [espresso; cappuccino] [guest_espresso]
              "barista" 0 (CosmosHttpResponseError "Service Unavailable") [])
    as (w2 & E2 & _ & _ & Hlist); try reflexivity; try (simpl; lia).
  rewrite E1, E2. split; [reflexivity|]. split; [reflexivity|].
  apply Hlist. reflexivity.
Defined.

(** ** Where the catalog claim fails *)

(** C4, counterexample.  The products handle is set and Cosmos answers the
    query with an HTTP error: [get_product] answers 404 ["Product not found"],
    not 503, although product ["1"] is stored; when the call does not reach
    Cosmos at all the error escapes the handler (status 500). *)
Lemma get_product_store_error_is_not_service_unavailable :
  next_call_raises (CosmosHttpResponseError "Service Unavailable") cafe_cosmos_down
  /\ In espresso [espresso; cappuccino]
  /\ fst (get_product "1" cafe_cosmos_down) = HTTPException 404 "Product not found"
  /\ status_code_of (fst (get_product "1" cafe_cosmos_down)) <> 503
  /\ next_call_raises (ServiceRequestError "Connection refused") cafe_network_down
  /\ fst (get_product "1" cafe_network_down)
     = Uncaught (ServiceRequestError "Connection refused")
  /\ status_code_of (fst (get_product "1" cafe_network_down)) <> 503.
Proof.
  repeat split; try (now exists []); try (simpl; auto; fail); discriminate.
Qed.

(** * Further properties of the handlers *)

(** ** The auth gate *)

Lemma gate_returns_or_401 (JWT_SECRET_KEY : string)
    (authorization : option Authorization) (clock : Z) :
  (exists u, get_current_user JWT_SECRET_KEY authorization clock = Returned u)
  \/ (exists detail,
         get_current_user JWT_SECRET_KEY authorization clock
         = HTTPException 401 detail).
Proof.
  destruct authorization as [[text|[claims key alg]]|]; simpl;
    try (right; eexists; reflexivity).
  - destruct (_ || _); right; eexists; reflexivity.
  - destruct (negb _); [right; eexists; reflexivity|].
    destruct (negb _); [right; eexists; reflexivity|].
    destruct (exp claims) as [e|];
      [destruct (e <? clock); [right; eexists; reflexivity|]|];
      (destruct (sub claims); [left|right]; eexists; reflexivity).
Qed.


(** X2. A token made by [create_access_token] for claims with subject [u]
    is accepted by the gate, as [u], up to [utcnow] plus the given duration
    and rejected with 401 after it; for no duration and for a zero duration
    alike the lifetime is the default of 60 minutes, and an [exp] already in
    the claims is replaced. *)
Theorem access_token_lifetime (JWT_SECRET_KEY : string) (data : Claims)
    (expires_delta : option Z) (utcnow clock : Z) (u : string) :
  sub data = Some u ->
  (expires_delta = None \/ expires_delta = Some 0 ->
   get_current_user JWT_SECRET_KEY
     (Some (Bearer (create_access_token JWT_SECRET_KEY data expires_delta utcnow)))
     clock
   = if utcnow + 60 * 60 <? clock
     then HTTPException 401 "Invalid or expired token"
     else Returned u)
  /\ (forall d,
      expires_delta = Some d -> d <> 0 ->
      get_current_user JWT_SECRET_KEY
        (Some (Bearer (create_access_token JWT_SECRET_KEY data expires_delta utcnow)))
        clock
      = if utcnow + d <? clock
        then HTTPException 401 "Invalid or expired token"
        else Returned u).
Proof.
  intros Hsub.
  assert (Hgate : forall delta,
             get_current_user JWT_SECRET_KEY
               (Some (Bearer (jwt_encode (mkClaims (sub data) (Some (utcnow + delta)))
                                JWT_SECRET_KEY JWT_ALGORITHM))) clock
             = if utcnow + delta <? clock
               then HTTPException 401 "Invalid or expired token"
               else Returned u).
  { intros delta. simpl. rewrite String.eqb_refl. simpl.
    destruct (utcnow + delta <? clock); [reflexivity|]. simpl. now rewrite Hsub. }
  split.
  - intros [->| ->]; apply (Hgate (60 * 60)).
  - intros d -> Hd. unfold create_access_token.
    destruct (Z.eqb_spec d 0) as [|_]; [contradiction|]. apply Hgate.
Qed.

(** X3. When the gate does not accept the header, a guarded route answers
    401 and the handler does not run: the store is as before.  Without a
    header, and with one that does not start with ["Bearer "], the detail is
    ["Not authenticated"]. *)
Theorem guarded_route_rejects_before_handler {R} (JWT_SECRET_KEY : string)
    (authorization : option Authorization) (clock : Z)
    (handler : string -> World -> Response R * World) (w : World) :
  (authorization = None
   \/ (exists text, authorization = Some (Plain text)
                    /\ String.prefix "Bearer " text = false) ->
   guarded JWT_SECRET_KEY authorization clock handler w
   = (HTTPException 401 "Not authenticated", w))
  /\ ((forall u, get_current_user JWT_SECRET_KEY authorization clock <> Returned u) ->
      exists detail,
        guarded JWT_SECRET_KEY authorization clock handler w
        = (HTTPException 401 detail, w)).
Proof.
  split.
  - intros [->|(text & -> & Hp)]; unfold guarded; simpl; [reflexivity|].
    rewrite Hp. simpl. now rewrite orb_true_r.
  - intros Hrej.
    destruct (gate_returns_or_401 JWT_SECRET_KEY authorization clock)
      as [(u & E)|(detail & E)].
    + now elim (Hrej u).
    + exists detail. unfold guarded. now rewrite E.
Qed.

(** X4. The token of a successful login opens every guarded route as the
    demo user for the next 60 minutes: the route runs its handler with
    [current_user = "barista"]; after that the route answers 401 without
    running the handler. *)
Theorem login_opens_guarded_routes {R} (JWT_SECRET_KEY : string)
    (body : LoginRequest) (utcnow clock : Z) (token : Token) (token_type : string)
    (handler : string -> World -> Response R * World) (w : World) :
  auth_login JWT_SECRET_KEY body utcnow = Returned (token, token_type) ->
  (clock <= utcnow + 60 * 60 ->
   guarded JWT_SECRET_KEY (Some (Bearer token)) clock handler w
   = handler DEMO_USERNAME w)
  /\ (utcnow + 60 * 60 < clock ->
      guarded JWT_SECRET_KEY (Some (Bearer token)) clock handler w
      = (HTTPException 401 "Invalid or expired token", w)).
Proof.
  unfold auth_login.
  destruct (String.eqb_spec (username body) DEMO_USERNAME) as [Eu|];
    [|discriminate].
  destruct (_ || _); [discriminate|].
  intros E. injection E as <- _. rewrite Eu.
  unfold guarded, create_access_token. simpl. rewrite String.eqb_refl. simpl.
  split; intros Hc.
  - destruct (Z.ltb_spec (utcnow + 3600) clock); [lia|]. reflexivity.
  - destruct (Z.ltb_spec (utcnow + 3600) clock); [|lia]. reflexivity.
Qed.

(** ** Handlers under any behaviour of the store *)

Lemma same_documents_refl (w : World) : same_documents w w.
Proof. repeat split. Qed.

Lemma same_documents_trans (w1 w2 w3 : World) :
  same_documents w1 w2 -> same_documents w2 w3 -> same_documents w1 w3.
Proof.
  intros (P1 & C1 & O1) (P2 & C2 & O2). repeat split; congruence.
Qed.

Lemma reads_ret {A} (a : A) : reads (ret a).
Proof. intros w. apply same_documents_refl. Qed.

Lemma reads_raise {A} (e : exn) : reads (@raise A e).
Proof. intros w. apply same_documents_refl. Qed.

Lemma reads_bind {A B} (m : M A) (k : A -> M B) :
  reads m -> (forall a, reads (k a)) -> reads (bind m k).
Proof.
  intros Hm Hk w. specialize (Hm w). unfold bind.
  destruct (m w) as [[e|a] w1]; simpl in *; auto.
  eapply same_documents_trans; [exact Hm | apply Hk].
Qed.

(** A store call that hands back the documents it was given. *)
Lemma reads_call {A R} (h : Handle A) (g : list A -> exn + R) :
  (forall w c fs, contents h w = Some c ->
                  same_documents w (store h c (set_faults fs w))) ->
  reads (call h (fun c => match g c with
                          | inl e => inl e
                          | inr r => inr (r, c)
                          end)).
Proof.
  intros Hh w. unfold call.
  destruct (contents h w) as [c|] eqn:Ec; [|apply same_documents_refl].
  destruct (faults w) as [|[e|] fs]; try (repeat split; fail);
    destruct (g c); simpl; try (repeat split; fail); now apply Hh.
Qed.

Lemma reads_query_products (cond : Product -> bool) :
  reads (query_items Products cond).
Proof.
  apply (reads_call Products (fun c => inr (select cond c))).
  intros w c fs Ec. simpl in *. repeat split. simpl. now rewrite Ec.
Qed.

Lemma reads_query_cart (cond : CartLine -> bool) :
  reads (query_items Cart cond).
Proof.
  apply (reads_call Cart (fun c => inr (select cond c))).
  intros w c fs Ec. simpl in *. repeat split. simpl. now rewrite Ec.
Qed.

Lemma reads_query_orders (cond : Order -> bool) :
  reads (query_items Orders cond).
Proof.
  apply (reads_call Orders (fun c => inr (select cond c))).
  intros w c fs Ec. simpl in *. repeat split. simpl. now rewrite Ec.
Qed.

Lemma reads_try_except {A R} (body : M A) (on_success : A -> Response R)
    (handler : exn -> Response R) (w : World) :
  reads body -> same_documents w (snd (try_except body on_success handler w)).
Proof.
  intros Hb. specialize (Hb w). unfold try_except.
  now destruct (body w) as [[e|a] w'].
Qed.

Lemma reads_get_cart_loop (items : list CartLine) :
  forall acc, reads (get_cart_loop items acc).
Proof.
  induction items as [|item items IH]; intros acc; simpl.
  - apply reads_ret.
  - apply reads_bind; [apply reads_query_products|].
    intros [|product others]; apply IH.
Qed.

Lemma reads_category_column (items : list (option string)) :
  reads (category_column items).
Proof.
  induction items as [|[k|] items IH]; simpl.
  - apply reads_ret.
  - apply reads_bind; [exact IH | intros ks; apply reads_ret].
  - apply reads_raise.
Qed.

(** X6. The six reading routes never change a stored document, whether
    their store calls go through or fail. *)
Theorem reading_routes_write_nothing (w : World) (current_user product_id q : string)
    (category : option string) :
  same_documents w (snd (get_cart current_user w))
  /\ same_documents w (snd (get_orders current_user w))
  /\ same_documents w (snd (list_products category w))
  /\ same_documents w (snd (search_products q w))
  /\ same_documents w (snd (get_product product_id w))
  /\ same_documents w (snd (get_categories w)).
Proof.
  split; [|split; [|split; [|split; [|split]]]].
  - unfold get_cart. destruct (_ || _); [apply same_documents_refl|].
    apply reads_try_except. apply reads_bind; [apply reads_query_cart|].
    intros items. apply reads_get_cart_loop.
  - unfold get_orders. destruct (unset _ _); [apply same_documents_refl|].
    apply reads_try_except. apply reads_query_orders.
  - unfold list_products. destruct (unset _ _); [apply same_documents_refl|].
    apply reads_try_except.
    destruct category as [[|a s]|]; apply reads_query_products.
  - unfold search_products. destruct (unset _ _); [apply same_documents_refl|].
    apply reads_try_except. apply reads_query_products.
  - unfold get_product. destruct (unset _ _); [apply same_documents_refl|].
    apply reads_try_except. apply reads_query_products.
  - unfold get_categories. destruct (unset _ _); [apply same_documents_refl|].
    apply reads_try_except. apply reads_bind.
    + apply (reads_call Products (fun c => inr (distinct (map p_category c)))).
      intros w0 c fs Ec. simpl in *. repeat split. simpl. now rewrite Ec.
    + apply reads_category_column.
Qed.

(** X5. The cart and order routes and the three listing routes of the
    catalog never raise: whatever the store holds and whichever of its calls
    fail, the response has status 200. *)
Theorem routes_always_answer_200 (w : World) (current_user product_id q uuid4 utcnow : string)
    (item : CartItem) (category : option string) :
  status_code_of (fst (get_cart current_user w)) = 200
  /\ status_code_of (fst (add_to_cart item current_user uuid4 w)) = 200
  /\ status_code_of (fst (remove_from_cart product_id current_user w)) = 200
  /\ status_code_of (fst (create_order current_user uuid4 utcnow w)) = 200
  /\ status_code_of (fst (get_orders current_user w)) = 200
  /\ status_code_of (fst (list_products category w)) = 200
  /\ status_code_of (fst (search_products q w)) = 200
  /\ status_code_of (fst (get_categories w)) = 200.
Proof.
  assert (Htry : forall A R (body : M A) (s : A -> Response R) (h : exn -> Response R),
             (forall a, status_code_of (s a) = 200) ->
             (forall e, status_code_of (h e) = 200) ->
             status_code_of (fst (try_except body s h w)) = 200).
  { intros A R body s h Hs Hh. unfold try_except.
    destruct (body w) as [[e|a] w']; simpl; auto. }
  unfold get_cart, add_to_cart, remove_from_cart, create_order, get_orders,
    list_products, search_products, get_categories.
  repeat match goal with
         | |- _ /\ _ => split
         | |- context [if ?b then _ else _] => destruct b; [reflexivity|]
         | |- _ => apply Htry; reflexivity
         end.
Qed.

(** X7. When a handle a route needs is not set, the route makes no store
    call: the three writing routes answer [{"error": "Database not
    available"}] and the two reading routes the empty list, and the world is
    untouched.  [get_cart] needs both the cart and the products handle,
    [create_order] both the orders and the cart handle. *)
Theorem cart_routes_without_store (w : World) (current_user product_id uuid4 utcnow : string)
    (item : CartItem) :
  (cart_container w = None ->
   add_to_cart item current_user uuid4 w = (ReturnedError "Database not available", w)
   /\ remove_from_cart product_id current_user w
      = (ReturnedError "Database not available", w)
   /\ create_order current_user uuid4 utcnow w
      = (ReturnedError "Database not available", w)
   /\ get_cart current_user w = (Returned [], w))
  /\ (products_container w = None -> get_cart current_user w = (Returned [], w))
  /\ (orders_container w = None ->
      create_order current_user uuid4 utcnow w
      = (ReturnedError "Database not available", w)
      /\ get_orders current_user w = (Returned [], w)).
Proof.
  unfold add_to_cart, remove_from_cart, create_order, get_cart, get_orders, unset.
  simpl contents.
  split; [|split]; intros ->; repeat split;
    destruct (orders_container w), (cart_container w); reflexivity.
Qed.

(** X8. [add_to_cart] writes at most once, as its last store call: when it
    answers with an error object, whatever failed, the stored documents are
    those from before the call. *)
Theorem add_to_cart_error_leaves_store (w : World) (item : CartItem)
    (current_user uuid4 : string) (message : string) :
  fst (add_to_cart item current_user uuid4 w) = ReturnedError message ->
  same_documents w (snd (add_to_cart item current_user uuid4 w)).
Proof.
  unfold add_to_cart, unset. simpl contents.
  destruct (cart_container w) as [c|] eqn:Ec; [|intros _; apply same_documents_refl].
  unfold try_except, bind, query_items, upsert_item, create_item, call.
  simpl contents. rewrite Ec.
  assert (Hq : forall fs, same_documents w (set_cart c (set_faults fs w))).
  { intros fs. repeat split. simpl. now rewrite Ec. }
  destruct (faults w) as [|[e|] fs]; simpl; try (intros _; repeat split; fail).
  - destruct (select _ c) as [|x rest]; simpl.
    + destruct (create _ c); simpl; [intros _; apply Hq | discriminate].
    + discriminate.
  - destruct (select _ c) as [|x rest]; simpl.
    + destruct fs as [|[e|] fs']; simpl;
        try (intros _; apply Hq);
        destruct (create _ c); simpl; try discriminate; intros _; apply Hq.
    + destruct fs as [|[e|] fs']; simpl; try discriminate; intros _; apply Hq.
Qed.

(** ** Routes one after another *)

Lemma get_cart_quiet (w : World) products cart orders (current_user : string) :
  holds w (Some products) (Some cart) orders ->
  exists w',
    get_cart current_user w
    = (Returned (flat_map (cart_entry products) (select (owned_by DEFAULT_USER) cart)),
       w')
    /\ holds w' (Some products) (Some cart) orders.
Proof.
  intros Hw. pose proof Hw as (Hp & Hc & _ & _).
  destruct (query_cart_quiet w _ _ _ (owned_by DEFAULT_USER) Hw) as (w1 & E1 & Hw1).
  destruct (get_cart_loop_quiet products (select (owned_by DEFAULT_USER) cart)
              [] w1 _ _ Hw1) as (w2 & E2 & Hw2).
  exists w2. split; [|exact Hw2].
  unfold get_cart. rewrite (unset_false Cart w _ Hc), (unset_false Products w _ Hp).
  simpl orb. cbv iota. unfold try_except.
  rewrite (bind_ok _ _ _ _ _ E1), E2. reflexivity.
Qed.

Lemma get_orders_quiet (w : World) products cart orders (current_user : string) :
  holds w products cart (Some orders) ->
  exists w',
    get_orders current_user w
    = (Returned (select (fun c => (o_user_id c =? DEFAULT_USER)%string) orders), w')
    /\ holds w' products cart (Some orders).
Proof.
  intros (Hp & Hc & Ho & Hq). eexists. split.
  - unfold get_orders. rewrite (unset_false Orders w _ Ho). unfold try_except.
    unfold query_items. erewrite call_quiet; eauto.
  - repeat split; simpl; auto. eapply quiet_tl; eauto.
Qed.

Lemma remove_from_cart_quiet (w : World) products cart orders
    (product_id current_user : string) :
  holds w products (Some cart) orders ->
  wf_container cart ->
  exists w',
    remove_from_cart product_id current_user w
    = (ReturnedMessage "Removed successfully", w')
    /\ holds w' products
         (Some (filter (fun x => negb (line_of DEFAULT_USER product_id x)) cart))
         orders.
Proof.
  intros Hw Hwf. pose proof Hw as (_ & Hc & _ & _).
  destruct (query_cart_quiet w _ _ _ (line_of DEFAULT_USER product_id) Hw)
    as (w1 & E1 & Hw1).
  destruct (delete_selected (line_of DEFAULT_USER product_id) w1 _ _ _ Hw1 Hwf)
    as (w2 & E2 & Hw2).
  { intros x. apply line_of_owner. }
  exists w2. split; [|exact Hw2].
  unfold remove_from_cart. rewrite (unset_false Cart w _ Hc).
  unfold try_except. rewrite (bind_ok _ _ _ _ _ E1), E2. reflexivity.
Qed.

(** The container after a call of [add_to_cart] that goes through. *)
Lemma add_to_cart_store (w : World) products cart orders
    (item : CartItem) (current_user uuid4 : string) :
  holds w products (Some cart) orders ->
  wf_container cart ->
  (select (line_of DEFAULT_USER (item_product_id item)) cart = [] ->
   fresh_in uuid4 DEFAULT_USER cart) ->
  exists w',
    add_to_cart item current_user uuid4 w = (ReturnedMessage "Saved successfully", w')
    /\ holds w' products
         (Some match select (line_of DEFAULT_USER (item_product_id item)) cart with
               | [] => cart ++ [mkCartLine uuid4 DEFAULT_USER (item_product_id item)
                                  (item_quantity item)]
               | x :: _ =>
                   map (fun d => if same_key x d
                                 then set_quantity x (item_quantity item) else d) cart
               end)
         orders.
Proof.
  intros Hw Hwf Hfresh. pose proof Hw as (_ & Hc & _ & _).
  destruct (query_cart_quiet w _ _ _ (line_of DEFAULT_USER (item_product_id item)) Hw)
    as (w1 & E1 & Hw1).
  unfold add_to_cart. rewrite (unset_false Cart w _ Hc). unfold try_except.
  rewrite (bind_ok _ _ _ _ _ E1).
  destruct (select (line_of DEFAULT_USER (item_product_id item)) cart)
    as [|x rest] eqn:Esel.
  - destruct (create_quiet_cart w1 _ _ _
                (mkCartLine uuid4 DEFAULT_USER (item_product_id item)
                   (item_quantity item)) Hw1 (Hfresh eq_refl)) as (w2 & E2 & Hw2).
    exists w2. rewrite E2. split; [reflexivity | exact Hw2].
  - assert (Hx : In x cart).
    { assert (K : In x (select (line_of DEFAULT_USER (item_product_id item)) cart))
        by (rewrite Esel; simpl; auto).
      now apply filter_In in K. }
    destruct (upsert_quiet_cart w1 _ _ _ (set_quantity x (item_quantity item)) Hw1)
      as (w2 & E2 & Hw2).
    destruct (upsert_stored cart x (item_quantity item) Hwf Hx) as [Eup _].
    rewrite Eup in Hw2.
    exists w2. rewrite E2. split; [reflexivity | exact Hw2].
Qed.

(** X9. When several lines of the fixed owner hold the same product,
    [add_to_cart] gives the new quantity to the first of them only; the
    others stay as they are and no line is added. *)
Theorem add_to_cart_overwrites_first_duplicate_only (w : World) products cart orders
    (item : CartItem) (current_user uuid4 : string) (x : CartLine)
    (rest : list CartLine) :
  holds w products (Some cart) orders ->
  wf_container cart ->
  select (line_of DEFAULT_USER (item_product_id item)) cart = x :: rest ->
  exists w' cart',
    add_to_cart item current_user uuid4 w = (ReturnedMessage "Saved successfully", w')
    /\ cart_container w' = Some cart'
    /\ select (line_of DEFAULT_USER (item_product_id item)) cart'
       = set_quantity x (item_quantity item) :: rest
    /\ length cart' = length cart.
Proof.
  intros Hw Hwf Hsel.
  destruct (add_to_cart_quiet w _ _ _ item current_user uuid4 Hw Hwf)
    as (w' & cart' & E & Hw' & _ & Hsel' & _).
  { rewrite Hsel. discriminate. }
  destruct (add_to_cart_store w _ _ _ item current_user uuid4 Hw Hwf)
    as (w2 & E2 & Hw2).
  { rewrite Hsel. discriminate. }
  rewrite E in E2. injection E2 as <-.
  destruct Hw' as (_ & Hc' & _ & _). destruct Hw2 as (_ & Hc2 & _ & _).
  exists w', cart'. rewrite Hsel in *.
  repeat split; auto.
  rewrite Hc' in Hc2. injection Hc2 as ->. apply length_map.
Qed.

(** X10. Adding a product the fixed owner has no line for and then removing
    it gives back the cart container document for document. *)
Theorem add_then_remove_restores_cart (w : World) products cart orders
    (item : CartItem) (current_user uuid4 : string) :
  holds w products (Some cart) orders ->
  wf_container cart ->
  select (line_of DEFAULT_USER (item_product_id item)) cart = [] ->
  fresh_in uuid4 DEFAULT_USER cart ->
  exists w1 w2,
    add_to_cart item current_user uuid4 w = (ReturnedMessage "Saved successfully", w1)
    /\ cart_container w1 <> Some cart
    /\ remove_from_cart (item_product_id item) current_user w1
       = (ReturnedMessage "Removed successfully", w2)
    /\ holds w2 products (Some cart) orders.
Proof.
  intros Hw Hwf Hnone Hfresh.
  destruct (add_to_cart_store w _ _ _ item current_user uuid4 Hw Hwf (fun _ => Hfresh))
    as (w1 & E1 & Hw1).
  rewrite Hnone in Hw1.
  destruct (remove_from_cart_quiet w1 _ _ _ (item_product_id item) current_user Hw1)
    as (w2 & E2 & Hw2).
  { now apply wf_app_fresh. }
  exists w1, w2. split; [exact E1|]. split; [|split; [exact E2|]].
  - destruct Hw1 as (_ & Hc1 & _). rewrite Hc1. intros K. injection K as K.
    apply (f_equal (@length _)) in K. rewrite length_app in K. simpl in K. lia.
  - rewrite filter_app in Hw2. simpl in Hw2.
    unfold line_of at 2 in Hw2. simpl in Hw2. rewrite !String.eqb_refl in Hw2.
    simpl in Hw2. rewrite app_nil_r in Hw2.
    rewrite filter_all in Hw2; [exact Hw2|].
    intros x Hx. destruct (line_of DEFAULT_USER (item_product_id item) x) eqn:K; auto.
    assert (Hin : In x (select (line_of DEFAULT_USER (item_product_id item)) cart))
      by (apply filter_In; auto).
    rewrite Hnone in Hin. destruct Hin.
Qed.






(** X15. A [create_order] that goes through copies every cart line of the
    fixed owner, one item per line in store order with the line's product id
    and quantity, under the given id and time stamp; the lines of other
    users are neither copied nor deleted. *)
Theorem create_order_copies_every_line (w : World) products cart orders
    (current_user uuid4 utcnow : string) :
  holds w products (Some cart) (Some orders) ->
  wf_container cart ->
  fresh_in uuid4 DEFAULT_USER orders ->
  exists w' order,
    create_order current_user uuid4 utcnow w = (Returned order, w')
    /\ o_id order = uuid4
    /\ o_user_id order = DEFAULT_USER
    /\ o_status order = "confirmed"
    /\ o_created_at order = utcnow
    /\ o_items order
       = map (fun line => mkOrderItem (cl_product_id line) (cl_quantity line))
           (select (owned_by DEFAULT_USER) cart)
    /\ orders_container w' = Some (orders ++ [order])
    /\ cart_container w'
       = Some (filter (fun line => negb (cl_user_id line =? DEFAULT_USER)%string) cart).
Proof.
  intros Hw Hwf Hfresh.
  destruct (create_order_quiet w _ _ _ current_user uuid4 utcnow Hw Hwf Hfresh)
    as (w' & E & (_ & Hc & Ho & _)).
  eexists w', _. split; [exact E|]. repeat split; assumption.
Qed.

(** X16. [get_orders] answers with the orders of the fixed owner, in store
    order and without those of other users; right after a [create_order]
    that went through, the new order is the last of them. *)
Theorem create_order_then_get_orders (w : World) products cart orders
    (current_user uuid4 utcnow : string) :
  holds w products (Some cart) (Some orders) ->
  wf_container cart ->
  fresh_in uuid4 DEFAULT_USER orders ->
  exists w0 w1 w2 order,
    get_orders current_user w
    = (Returned (filter (fun o => (o_user_id o =? DEFAULT_USER)%string) orders), w0)
    /\ create_order current_user uuid4 utcnow w = (Returned order, w1)
    /\ get_orders current_user w1
       = (Returned (filter (fun o => (o_user_id o =? DEFAULT_USER)%string) orders
                    ++ [order]), w2).
Proof.
  intros Hw Hwf Hfresh.
  destruct (get_orders_quiet w _ _ _ current_user Hw) as (w0 & E0 & _).
  destruct (create_order_quiet w _ _ _ current_user uuid4 utcnow Hw Hwf Hfresh)
    as (w1 & E1 & Hw1).
  destruct (get_orders_quiet w1 _ _ _ current_user Hw1) as (w2 & E2 & _).
  eexists w0, w1, w2, _. split; [exact E0|]. split; [exact E1|].
  rewrite E2. unfold select. rewrite filter_app. reflexivity.
Qed.

(** X17. After a [create_order] that went through, [get_cart] answers the
    empty list, and a second [create_order] makes a second order, with no
    items: nothing in the handler keeps an emptied cart from being ordered. *)
Theorem create_order_twice (w : World) products cart orders
    (current_user uuid4 uuid4' utcnow utcnow' : string) :
  holds w (Some products) (Some cart) (Some orders) ->
  wf_container cart ->
  fresh_in uuid4 DEFAULT_USER orders ->
  fresh_in uuid4' DEFAULT_USER orders ->
  uuid4' <> uuid4 ->
  exists w1 w2 w3 first second,
    create_order current_user uuid4 utcnow w = (Returned first, w1)
    /\ get_cart current_user w1 = (Returned [], w2)
    /\ create_order current_user uuid4' utcnow' w2 = (Returned second, w3)
    /\ o_items second = []
    /\ orders_container w3 = Some (orders ++ [first; second]).
Proof.
  intros Hw Hwf Hfresh Hfresh' Hne.
  destruct (create_order_quiet w _ _ _ current_user uuid4 utcnow Hw Hwf Hfresh)
    as (w1 & E1 & Hw1).
  destruct (get_cart_quiet w1 _ _ _ current_user Hw1) as (w2 & E2 & Hw2).
  rewrite select_rejected in E2. simpl in E2.
  destruct (create_order_quiet w2 _ _ _ current_user uuid4' utcnow' Hw2)
    as (w3 & E3 & (_ & _ & Ho3 & _)).
  { now apply wf_filter. }
  { intros d Hd Hu. apply in_app_or in Hd as [Hd|[<-|[]]].
    - now apply (Hfresh' d).
    - simpl. congruence. }
  rewrite select_rejected in E3, Ho3. simpl in E3, Ho3.
  eexists w1, w2, w3, _, _.
  split; [exact E1|]. split; [exact E2|]. split; [exact E3|].
  split; [reflexivity|]. rewrite Ho3, <- app_assoc. reflexivity.
Qed.

(** ** A failure in the middle of the deletions *)

Lemma firstn_subset {A} (k : nat) (l : list A) (x : A) :
  In x (firstn k l) -> In x l.
Proof.
  intros Hx. rewrite <- (firstn_skipn k l). apply in_or_app. now left.
Qed.

Lemma filter_firstn_skipn (l : list CartLine) :
  wf_container l ->
  forall k, filter (fun x => negb (existsb (fun i => same_key i x) (firstn k l))) l
            = skipn k l.
Proof.
  induction l as [|a l IH]; intros Hwf k.
  - now destruct k.
  - destruct k as [|k]; [simpl; now rewrite filter_all|].
    inversion Hwf as [|? ? Ha Hl]; subst.
    cbn [firstn skipn filter existsb]. rewrite same_key_refl. simpl.
    rewrite <- (IH Hl k). apply filter_ext_in. intros x Hx.
    destruct (same_key a x) eqn:K; auto. exfalso.
    apply has_key_spec in K. apply Ha. apply in_map_iff. exists x. auto.
Qed.

Lemma delete_each_interrupted (items : list CartLine) :
  forall (k : nat) (w : World) (cart : list CartLine) (e : exn)
         (rest : list (option exn)),
    cart_container w = Some cart ->
    faults w = repeat None k ++ Some e :: rest ->
    (k < length items)%nat ->
    NoDup (map cl_id items) ->
    (forall i, In i items -> In i cart /\ cl_user_id i = DEFAULT_USER) ->
    exists w',
      delete_each items w = (inl e, w')
      /\ cart_container w'
         = Some (filter (fun x => negb (existsb (fun i => same_key i x)
                                          (firstn k items))) cart)
      /\ products_container w' = products_container w
      /\ orders_container w' = orders_container w.
Proof.
  induction items as [|i items IH]; intros k w cart e rest Hc Hf Hk Hnd Hin;
    simpl in Hk; [lia|].
  inversion Hnd as [|? ? Hi Hrest]; subst.
  destruct (Hin i (or_introl eq_refl)) as [Hic Hiu].
  destruct k as [|k]; simpl in Hf.
  - eexists. split.
    + simpl. erewrite bind_raise; [reflexivity|].
      unfold delete_item. eapply call_raises; eauto.
    + simpl. rewrite filter_all by auto. auto.
  - set (cart1 := filter (fun x => negb (same_key i x)) cart).
    set (w1 := store Cart cart1 (set_faults (repeat None k ++ Some e :: rest) w)).
    assert (E1 : delete_item Cart (cl_id i) DEFAULT_USER w = (inr tt, w1)).
    { unfold delete_item. eapply call_passes; eauto.
      unfold delete. rewrite <- Hiu.
      change (existsb _ cart)
        with (existsb (has_key (doc_id i) (partition_key i)) cart).
      rewrite (existsb_has_key_true _ _ Hic). reflexivity. }
    destruct (IH k w1 cart1 e rest) as (w2 & E2 & Hc2 & Hp2 & Ho2); auto; try lia.
    { intros j Hj. destruct (Hin j (or_intror Hj)) as [Hjc Hju]. split; auto.
      apply filter_In. split; auto. apply negb_true_iff, not_true_is_false.
      intros K. apply has_key_spec in K. unfold doc_key in K.
      injection K as _ K. apply Hi. simpl in K. rewrite <- K. now apply in_map. }
    exists w2. split; [|split; [|split]]; auto.
    + simpl. rewrite (bind_ok _ _ _ _ _ E1). exact E2.
    + rewrite Hc2. unfold cart1. rewrite filter_filter. f_equal.
      apply filter_ext. intros x. simpl. now rewrite negb_orb.
Qed.

Lemma delete_selected_interrupted (cond : CartLine -> bool) (w : World)
    (cart : list CartLine) (k : nat) (e : exn) (rest : list (option exn)) :
  cart_container w = Some cart ->
  wf_container cart ->
  (forall x, cond x = true -> cl_user_id x = DEFAULT_USER) ->
  faults w = repeat None k ++ Some e :: rest ->
  (k < length (select cond cart))%nat ->
  exists w' cart',
    delete_each (select cond cart) w = (inl e, w')
    /\ cart_container w' = Some cart'
    /\ select cond cart' = skipn k (select cond cart)
    /\ filter (fun x => negb (cond x)) cart' = filter (fun x => negb (cond x)) cart
    /\ products_container w' = products_container w
    /\ orders_container w' = orders_container w.
Proof.
  intros Hc Hwf Hcond Hf Hk.
  destruct (delete_each_interrupted (select cond cart) k w cart e rest Hc Hf Hk)
    as (w' & E & Hc' & Hp & Ho).
  - apply same_partition_ids with (u := DEFAULT_USER).
    + now apply wf_filter.
    + intros i Hi. apply filter_In in Hi as [_ Hi]. auto.
  - intros i Hi. apply filter_In in Hi as [Hi Hci]. auto.
  - eexists w', _. split; [exact E|]. split; [exact Hc'|].
    split; [|split; [|split]]; auto.
    + unfold select. rewrite filter_filter.
      rewrite <- (filter_firstn_skipn (filter cond cart) (wf_filter cond cart Hwf) k).
      rewrite filter_filter. apply filter_ext. intros x. apply andb_comm.
    + rewrite filter_filter. apply filter_ext_in. intros x Hx.
      destruct (cond x) eqn:Ec; simpl; [now rewrite andb_false_r|].
      rewrite andb_true_r. apply negb_true_iff, not_true_is_false. intros K.
      apply existsb_exists in K as (i & Hi & K).
      apply firstn_subset in Hi. apply filter_In in Hi as [Hi Hci].
      apply has_key_spec in K.
      assert (x = i) by (apply (wf_key_inj cart); auto). subst. congruence.
Qed.

(** X12. [remove_from_cart] deletes the matching lines one store call at a
    time.  When the query and the first [k] deletions go through and the
    next deletion raises [e], the route answers [{"error": str(e)}], the
    first [k] matching lines are gone and the others are still stored;
    lines that did not match are untouched. *)
Theorem remove_from_cart_interrupted (w : World) (cart : list CartLine)
    (product_id current_user : string) (k : nat) (e : exn)
    (rest : list (option exn)) :
  cart_container w = Some cart ->
  wf_container cart ->
  faults w = None :: repeat None k ++ Some e :: rest ->
  (k < length (select (line_of DEFAULT_USER product_id) cart))%nat ->
  exists w' cart',
    remove_from_cart product_id current_user w = (ReturnedError (str e), w')
    /\ cart_container w' = Some cart'
    /\ select (line_of DEFAULT_USER product_id) cart'
       = skipn k (select (line_of DEFAULT_USER product_id) cart)
    /\ filter (fun x => negb (line_of DEFAULT_USER product_id x)) cart'
       = filter (fun x => negb (line_of DEFAULT_USER product_id x)) cart.
Proof.
  intros Hc Hwf Hf Hk.
  set (w1 := store Cart cart (set_faults (repeat None k ++ Some e :: rest) w)).
  assert (E1 : query_items Cart (line_of DEFAULT_USER product_id) w
               = (inr (select (line_of DEFAULT_USER product_id) cart), w1)).
  { unfold query_items. eapply call_passes; eauto. }
  destruct (delete_selected_interrupted (line_of DEFAULT_USER product_id)
              w1 cart k e rest) as (w' & cart' & E2 & Hc' & Hsel & Hoth & _);
    auto.
  { intros x. apply line_of_owner. }
  exists w', cart'. split; [|auto].
  unfold remove_from_cart. rewrite (unset_false Cart w _ Hc). unfold try_except.
  rewrite (bind_ok _ _ _ _ _ E1), E2. reflexivity.
Qed.

(** X13. [create_order] stores the order before it clears the cart, and
    clears it one store call per line.  When the cart query, the creation
    of the order and the first [k] deletions go through and the next
    deletion raises [e], the route answers [{"error": str(e)}] although the
    order, with all the lines as items, is stored; the lines after the first
    [k] are still in the cart. *)
Theorem create_order_interrupted (w : World) (cart : list CartLine)
    (orders : list Order) (current_user uuid4 utcnow : string) (k : nat) (e : exn)
    (rest : list (option exn)) :
  cart_container w = Some cart ->
  orders_container w = Some orders ->
  wf_container cart ->
  fresh_in uuid4 DEFAULT_USER orders ->
  faults w = None :: None :: repeat None k ++ Some e :: rest ->
  (k < length (select (owned_by DEFAULT_USER) cart))%nat ->
  exists w' cart' order,
    create_order current_user uuid4 utcnow w = (ReturnedError (str e), w')
    /\ orders_container w' = Some (orders ++ [order])
    /\ o_id order = uuid4
    /\ o_items order = map snapshot (select (owned_by DEFAULT_USER) cart)
    /\ cart_container w' = Some cart'
    /\ select (owned_by DEFAULT_USER) cart'
       = skipn k (select (owned_by DEFAULT_USER) cart)
    /\ select (owned_by DEFAULT_USER) cart' <> [].
Proof.
  intros Hc Ho Hwf Hfresh Hf Hk.
  set (order := mkOrder uuid4 DEFAULT_USER
                  (map snapshot (select (owned_by DEFAULT_USER) cart))
                  "confirmed" utcnow).
  set (w1 := store Cart cart
               (set_faults (None :: repeat None k ++ Some e :: rest) w)).
  set (w2 := store Orders (orders ++ [order])
               (set_faults (repeat None k ++ Some e :: rest) w1)).
  assert (E1 : query_items Cart (owned_by DEFAULT_USER) w
               = (inr (select (owned_by DEFAULT_USER) cart), w1)).
  { unfold query_items. eapply call_passes; eauto. }
  assert (E2 : create_item Orders order w1 = (inr tt, w2)).
  { unfold create_item. eapply call_passes; [exact Ho | reflexivity |].
    unfold create, same_key.
    change (doc_id order) with uuid4. change (partition_key order) with DEFAULT_USER.
    rewrite (existsb_has_key_false _ _ _ Hfresh). reflexivity. }
  destruct (delete_selected_interrupted (owned_by DEFAULT_USER) w2 cart k e rest)
    as (w' & cart' & E3 & Hc' & Hsel & _ & _ & Ho'); auto.
  { intros x Hx. now apply String.eqb_eq in Hx. }
  exists w', cart', order.
  split; [|split; [exact Ho'|split; [reflexivity|split; [reflexivity|split;
          [exact Hc'|split; [exact Hsel|]]]]]].
  - unfold create_order.
    rewrite (unset_false Orders w _ Ho), (unset_false Cart w _ Hc).
    simpl orb. cbv iota. unfold try_except.
    rewrite (bind_ok _ _ _ _ _ E1). fold order.
    rewrite (bind_ok _ _ _ _ _ E2), (bind_raise _ _ _ _ _ E3). reflexivity.
  - rewrite Hsel. intros K. apply (f_equal (@length _)) in K.
    rewrite length_skipn in K. simpl in K. lia.
Qed.

(** The two ways a store call on a set handle can end. *)
Lemma call_outcome {A R} (h : Handle A) (f : list A -> exn + (R * list A))
    (w : World) (c : list A) :
  contents h w = Some c ->
  (exists e fs, call h f w = (inl e, set_faults fs w))
  \/ (exists r c' fs, f c = inr (r, c')
                      /\ call h f w = (inr r, store h c' (set_faults fs w))).
Proof.
  intros Hc. unfold call. rewrite Hc.
  destruct (faults w) as [|[e|] fs]; destruct (f c) as [e'|[r c']]; eauto 8.
Qed.

Lemma delete_each_keeps_orders (items : list CartLine) :
  forall w, orders_container (snd (delete_each items w)) = orders_container w.
Proof.
  induction items as [|i items IH]; intros w; [reflexivity|].
  simpl. unfold bind, delete_item, call. simpl contents.
  destruct (cart_container w) as [c|]; [|reflexivity].
  destruct (faults w) as [|[e|] fs]; try reflexivity;
    destruct (delete _ _ c); try reflexivity; now rewrite IH.
Qed.

(** X14. Whatever the store does, [create_order] never deletes a cart line
    before the order is stored: after the call either both containers are
    as before, or the orders container has gained the order that snapshots
    the cart; and an order in the response is that stored order. *)
Theorem create_order_stores_before_clearing (w : World) (cart : list CartLine)
    (orders : list Order) (current_user uuid4 utcnow : string) :
  cart_container w = Some cart ->
  orders_container w = Some orders ->
  (cart_container (snd (create_order current_user uuid4 utcnow w)) = Some cart
   /\ orders_container (snd (create_order current_user uuid4 utcnow w)) = Some orders
   \/ orders_container (snd (create_order current_user uuid4 utcnow w))
      = Some (orders ++ [mkOrder uuid4 DEFAULT_USER
                           (map snapshot (select (owned_by DEFAULT_USER) cart))
                           "confirmed" utcnow]))
  /\ (forall order,
        fst (create_order current_user uuid4 utcnow w) = Returned order ->
        order = mkOrder uuid4 DEFAULT_USER
                  (map snapshot (select (owned_by DEFAULT_USER) cart))
                  "confirmed" utcnow
        /\ orders_container (snd (create_order current_user uuid4 utcnow w))
           = Some (orders ++ [order])).
Proof.
  intros Hc Ho.
  set (order := mkOrder uuid4 DEFAULT_USER
                  (map snapshot (select (owned_by DEFAULT_USER) cart))
                  "confirmed" utcnow).
  unfold create_order.
  rewrite (unset_false Orders w _ Ho), (unset_false Cart w _ Hc).
  simpl orb. cbv iota. unfold try_except, query_items.
  destruct (call_outcome Cart
              (fun c => inr (select (owned_by DEFAULT_USER) c, c)) w cart Hc)
    as [(e & fs & E1)|(r & c' & fs & Ef & E1)].
  { erewrite bind_raise by exact E1. simpl.
    split; [left; auto | discriminate]. }
  injection Ef as <- <-.
  erewrite bind_ok by exact E1. fold order.
  set (w1 := store Cart cart (set_faults fs w)).
  assert (Ho1 : contents Orders w1 = Some orders) by exact Ho.
  unfold create_item.
  destruct (call_outcome Orders
              (fun c => match create order c with
                        | inl e => inl e
                        | inr c' => inr (tt, c')
                        end) w1 orders Ho1)
    as [(e & fs' & E2)|([] & c' & fs' & Ef & E2)].
  { erewrite bind_raise by exact E2. simpl.
    split; [left; auto | discriminate]. }
  erewrite bind_ok by exact E2.
  assert (Ec' : c' = orders ++ [order]).
  { unfold create in Ef. destruct (existsb _ orders); [discriminate|].
    now injection Ef as <-. }
  subst c'.
  set (w2 := store Orders (orders ++ [order]) (set_faults fs' w1)).
  pose proof (delete_each_keeps_orders (select (owned_by DEFAULT_USER) cart) w2)
    as Hkeep.
  destruct (delete_each (select (owned_by DEFAULT_USER) cart) w2)
    as [[e|[]] w3] eqn:E3; simpl in Hkeep.
  - erewrite bind_raise by exact E3. simpl.
    split; [right; exact Hkeep | discriminate].
  - erewrite bind_ok by exact E3. simpl.
    split; [right; exact Hkeep|].
    intros o E. injection E as <-. split; [reflexivity | exact Hkeep].
Qed.

(** ** Catalog reads that go through *)

Lemma prefix_spec (q s : string) :
  String.prefix q s = true <-> exists after, s = (q ++ after)%string.
Proof.
  revert q. induction s as [|b s IH]; intros [|a q]; simpl.
  - split; [exists ""%string; reflexivity | reflexivity].
  - split; [discriminate | intros (after & E); discriminate].
  - split; [exists (String b s); reflexivity | reflexivity].
  - destruct (Ascii.ascii_dec a b) as [->|Hne].
    + rewrite IH. split; intros (after & E); exists after.
      * now rewrite E.
      * now injection E.
    + split; [discriminate|]. intros (after & E). injection E as E _.
      now elim Hne.
Qed.

Lemma CONTAINS_spec (s q : string) :
  CONTAINS s q = true <-> substring_of q s.
Proof.
  unfold substring_of. induction s as [|b s IH]; cbn [CONTAINS].
  - rewrite orb_false_r, prefix_spec. split.
    + intros (after & E). exists ""%string, after. exact E.
    + intros ([|c before] & after & E); [exists after; exact E | discriminate].
  - rewrite orb_true_iff, prefix_spec, IH. split.
    + intros [(after & E)|(before & after & E)].
      * exists ""%string, after. exact E.
      * exists (String b before), after. simpl. now rewrite E.
    + intros ([|c before] & after & E).
      * left. exists after. exact E.
      * right. simpl in E. injection E as _ E. exists before, after. exact E.
Qed.

Lemma filter_head_split {A} (f : A -> bool) (l : list A) (x : A) (rest : list A) :
  filter f l = x :: rest ->
  exists before after,
    l = before ++ x :: after /\ (forall y, In y before -> f y = false).
Proof.
  induction l as [|a l IH]; simpl; [discriminate|].
  destruct (f a) eqn:Efa.
  - intros E. injection E as -> _. exists [], l. split; [reflexivity | intros y []].
  - intros E. destruct (IH E) as (before & after & -> & Hb).
    exists (a :: before), after. split; [reflexivity|].
    intros y [<-|Hy]; auto.
Qed.

(** X18. When a product of the requested id is stored and the query goes
    through, [get_product] returns the first stored product of that id; with
    unique ids that is the product itself. *)
Theorem get_product_returns_first_match (w : World) products cart orders
    (product_id : string) (product : Product) :
  holds w (Some products) cart orders ->
  In product products ->
  p_id product = product_id ->
  exists found w' before after,
    get_product product_id w = (Returned found, w')
    /\ products = before ++ found :: after
    /\ p_id found = product_id
    /\ (forall p, In p before -> p_id p <> product_id)
    /\ (NoDup (map p_id products) -> found = product).
Proof.
  intros Hw Hp Hid.
  destruct (query_products_quiet w _ _ _ (fun c => (p_id c =? product_id)%string) Hw)
    as (w' & E & _).
  destruct Hw as (Hpc & _).
  assert (K : In product (select (fun c => (p_id c =? product_id)%string) products))
    by (apply filter_In; split; auto; now apply String.eqb_eq).
  destruct (select _ products) as [|found others] eqn:Esel; [destruct K|].
  destruct (filter_head_split _ _ _ _ Esel) as (before & after & Eprod & Hbefore).
  assert (Hfound : p_id found = product_id).
  { assert (K1 : In found (filter (fun c => (p_id c =? product_id)%string) products))
      by (unfold select in Esel; rewrite Esel; simpl; auto).
    apply filter_In in K1 as [_ K1]. now apply String.eqb_eq. }
  exists found, w', before, after.
  split; [|split; [exact Eprod|split; [exact Hfound|split]]].
  - unfold get_product. rewrite (unset_false Products w _ Hpc).
    unfold try_except. now rewrite E.
  - intros p Hin. apply String.eqb_neq. now apply Hbefore.
  - intros Hnd. clear - Hnd Hp Hid Hfound Eprod.
    assert (Hf : In found products) by (rewrite Eprod; apply in_elt).
    revert Hnd Hp Hf. generalize products. intros l.
    induction l as [|a l IH]; simpl; [tauto|].
    intros Hnd [<-|Hp] [<-|Hf]; auto.
    + inversion Hnd as [|? ? Ha _]. elim Ha.
      apply in_map_iff. exists found. split; [congruence | assumption].
    + inversion Hnd as [|? ? Ha _]. elim Ha.
      apply in_map_iff. exists product. split; [congruence | assumption].
    + inversion Hnd. auto.
Qed.

(** X19. [list_products] that goes through returns every product, in store
    order, when no category or the empty category is given, and otherwise
    exactly the products whose category equals the given one, in store
    order; a product without category matches no filter. *)
Theorem list_products_filters_by_category (w : World) products cart orders
    (category : option string) :
  holds w (Some products) cart orders ->
  exists result w',
    list_products category w = (Returned result, w')
    /\ (category = None \/ category = Some ""%string -> result = products)
    /\ (forall wanted,
          category = Some wanted -> wanted <> ""%string ->
          (exists keep, result = filter keep products)
          /\ (forall p, In p result
                        <-> In p products /\ p_category p = Some wanted)).
Proof.
  intros Hw. pose proof Hw as (Hpc & _).
  unfold list_products. rewrite (unset_false Products w _ Hpc). unfold try_except.
  destruct category as [[|a s]|].
  - destruct (query_products_quiet w _ _ _ (fun _ => true) Hw) as (w' & -> & _).
    exists (select (fun _ => true) products), w'. split; [reflexivity|]. split.
    + intros _. now apply filter_all.
    + intros wanted E Hne. injection E as <-. now elim Hne.
  - destruct (query_products_quiet w _ _ _
                (fun c => match p_category c with
                          | Some k => (k =? String a s)%string
                          | None => false
                          end) Hw) as (w' & -> & _).
    eexists _, w'. split; [reflexivity|]. split.
    + intros [E|E]; discriminate.
    + intros wanted E _. injection E as <-. split; [eexists; reflexivity|].
      intros p. unfold select. rewrite filter_In.
      destruct (p_category p) as [k|].
      * rewrite String.eqb_eq. split; intros [H1 H2]; split; congruence.
      * split; intros [_ H2]; discriminate.
  - destruct (query_products_quiet w _ _ _ (fun _ => true) Hw) as (w' & -> & _).
    exists (select (fun _ => true) products), w'. split; [reflexivity|]. split.
    + intros _. now apply filter_all.
    + intros wanted E. discriminate.
Qed.

(** X20. [search_products] that goes through returns, in store order,
    exactly the products in whose name or category the query occurs as a
    substring, letter case included; the empty query returns every
    product. *)
Theorem search_products_matches_substrings (w : World) products cart orders
    (q : string) :
  holds w (Some products) cart orders ->
  exists result w',
    search_products q w = (Returned result, w')
    /\ (exists keep, result = filter keep products)
    /\ (forall p, In p result
                  <-> In p products
                      /\ (substring_of q (p_name p)
                          \/ exists k, p_category p = Some k /\ substring_of q k))
    /\ (q = ""%string -> result = products).
Proof.
  intros Hw. pose proof Hw as (Hpc & _).
  unfold search_products. rewrite (unset_false Products w _ Hpc). unfold try_except.
  match goal with
  | |- context [query_items Products ?c w] =>
      destruct (query_products_quiet w _ _ _ c Hw) as (w' & -> & _)
  end.
  eexists _, w'. split; [reflexivity|]. split; [eexists; reflexivity|]. split.
  - intros p. unfold select. rewrite filter_In, orb_true_iff, CONTAINS_spec.
    destruct (p_category p) as [k|].
    + rewrite CONTAINS_spec. split; intros [Hin [Hn|Hk]]; split; auto.
      * right. exists k. auto.
      * destruct Hk as (k' & E & Hk). injection E as <-. auto.
    + split; intros [Hin [Hn|Hk]]; split; auto; try discriminate.
      destruct Hk as (k' & E & _). discriminate.
  - intros ->. apply filter_all. intros p _.
    apply orb_true_iff. left. apply CONTAINS_spec. exists ""%string, (p_name p).
    reflexivity.
Qed.

(** ** Seeding the catalog *)

Lemma call_quiet_raises {A R} (h : Handle A) (f : list A -> exn + (R * list A))
    (w : World) (c : list A) (e : exn) :
  contents h w = Some c -> quiet w -> f c = inl e ->
  call h f w = (inl e, set_faults (tl (faults w)) w).
Proof.
  intros Hc Hq Hf. unfold call. rewrite Hc.
  destruct (faults w) as [|[e'|] fs] eqn:E; rewrite ?Hf; try reflexivity.
  unfold quiet in Hq. rewrite E in Hq. inversion Hq; discriminate.
Qed.

Lemma seed_loop_quiet (products : list Product) :
  forall (w : World) (c : list Product) cart orders,
    holds w (Some c) cart orders ->
    exists w',
      seed_loop products w = (inr tt, w')
      /\ holds w' (Some (seed_into c products)) cart orders.
Proof.
  induction products as [|p rest IH]; intros w c cart orders Hw.
  - exists w. split; [reflexivity | exact Hw].
  - destruct Hw as (Hp & Hc & Ho & Hq). simpl.
    unfold create_item at 1.
    destruct (existsb (same_key p) c) eqn:Ex.
    + erewrite call_quiet_raises; eauto; cycle 1.
      { unfold create. rewrite Ex. reflexivity. }
      simpl. apply IH. repeat split; simpl; auto. eapply quiet_tl; eauto.
    + erewrite call_quiet; eauto; cycle 1.
      { unfold create. rewrite Ex. reflexivity. }
      apply IH. repeat split; simpl; auto. eapply quiet_tl; eauto.
Qed.

Lemma seed_into_extends (products : list Product) :
  forall c, exists extra,
    seed_into c products = c ++ extra /\ incl extra products.
Proof.
  induction products as [|p rest IH]; intros c; simpl.
  - exists []. split; [now rewrite app_nil_r | intros x []].
  - destruct (existsb (same_key p) c).
    + destruct (IH c) as (extra & -> & Hi). exists extra. split; auto.
      intros x Hx. right. auto.
    + destruct (IH (c ++ [p])) as (extra & -> & Hi). exists (p :: extra).
      split; [now rewrite <- app_assoc|].
      intros x [<-|Hx]; [now left | right; auto].
Qed.

Lemma seed_into_covers (products : list Product) :
  forall c p, In p products \/ existsb (same_key p) c = true ->
              existsb (same_key p) (seed_into c products) = true.
Proof.
  induction products as [|a rest IH]; intros c p; simpl.
  - intros [[]|H]; exact H.
  - intros [[<-|Hp]|Hc].
    + apply IH. right. destruct (existsb (same_key a) c) eqn:Ex; auto.
      rewrite existsb_app. simpl. now rewrite same_key_refl, orb_true_r.
    + apply IH. now left.
    + apply IH. right. destruct (existsb (same_key a) c); auto.
      rewrite existsb_app, Hc. reflexivity.
Qed.

Lemma seed_into_settled (products : list Product) :
  forall c, (forall p, In p products -> existsb (same_key p) c = true) ->
            seed_into c products = c.
Proof.
  induction products as [|a rest IH]; intros c Hall; simpl; auto.
  rewrite (Hall a) by (simpl; auto). apply IH. intros p Hp. apply Hall. now right.
Qed.

(** X21. On a products handle that is set and with store calls that go
    through, [seed_products] leaves the stored products where they are and
    appends seed products only, so that every seed id is stored afterwards;
    on an empty container the result is the thirteen seed products in the
    order of the source; and running it a second time changes nothing. *)
Theorem seed_products_fills_in_missing (w : World) (c : list Product) cart orders :
  holds w (Some c) cart orders ->
  exists w1 w2 c1 extra,
    seed_products w = (inr tt, w1)
    /\ holds w1 (Some c1) cart orders
    /\ c1 = c ++ extra
    /\ incl extra seeded_products
    /\ (forall p, In p seeded_products ->
                  exists d, In d c1 /\ p_id d = p_id p)
    /\ (c = [] -> c1 = seeded_products)
    /\ seed_products w1 = (inr tt, w2)
    /\ holds w2 (Some c1) cart orders.
Proof.
  intros Hw.
  destruct (seed_loop_quiet seeded_products w c cart orders Hw) as (w1 & E1 & Hw1).
  destruct (seed_loop_quiet seeded_products w1 _ cart orders Hw1) as (w2 & E2 & Hw2).
  destruct (seed_into_extends seeded_products c) as (extra & Eext & Hincl).
  rewrite seed_into_settled in Hw2
    by (intros p Hp; apply seed_into_covers; now left).
  exists w1, w2, (seed_into c seeded_products), extra.
  split; [exact E1|]. split; [exact Hw1|]. split; [exact Eext|].
  split; [exact Hincl|]. split; [|split; [|split; [exact E2 | exact Hw2]]].
  - intros p Hp.
    assert (K : existsb (same_key p) (seed_into c seeded_products) = true)
      by (apply seed_into_covers; now left).
    apply existsb_exists in K as (d & Hd & K). exists d. split; auto.
    apply has_key_spec in K. unfold doc_key in K. simpl in K. congruence.
  - intros ->. reflexivity.
Qed.

Lemma seed_loop_interrupted (products : list Product) :
  forall (k : nat) (w : World) (c : list Product) (e : exn)
         (rest : list (option exn)),
    products_container w = Some c ->
    faults w = repeat None k ++ Some e :: rest ->
    (k < length products)%nat ->
    is_CosmosResourceExistsError e = false ->
    NoDup (map p_id products) ->
    (forall p d, In p products -> In d c -> p_id d <> p_id p) ->
    exists w',
      seed_loop products w = (inl e, w')
      /\ products_container w' = Some (c ++ firstn k products)
      /\ cart_container w' = cart_container w
      /\ orders_container w' = orders_container w.
Proof.
  induction products as [|p ps IH]; intros k w c e rest Hc Hf Hk He Hnd Hnew;
    simpl in Hk; [lia|].
  inversion Hnd as [|? ? Hp Hps]; subst.
  destruct k as [|k]; simpl in Hf.
  - eexists. split.
    + simpl. unfold create_item.
      erewrite call_raises; eauto. now rewrite He.
    + simpl. now rewrite app_nil_r.
  - assert (Ex : existsb (same_key p) c = false).
    { apply not_true_is_false. intros K. apply existsb_exists in K as (d & Hd & K).
      apply has_key_spec in K. unfold doc_key in K. simpl in K.
      apply (Hnew p d); simpl; auto. congruence. }
    destruct (IH k (store Products (c ++ [p])
                      (set_faults (repeat None k ++ Some e :: rest) w))
                (c ++ [p]) e rest) as (w' & E & Hc' & Hcart & Hord); auto; try lia.
    { intros q d Hq Hd. apply in_app_or in Hd as [Hd|[<-|[]]].
      - apply (Hnew q d); simpl; auto.
      - intros K. apply Hp. rewrite K. now apply in_map. }
    exists w'. split; [|split; [|split]]; auto.
    + simpl. unfold create_item at 1.
      rewrite (call_passes Products _ w c (c ++ [p]) tt
                 (repeat None k ++ Some e :: rest) Hc Hf)
        by (unfold create; rewrite Ex; reflexivity).
      exact E.
    + rewrite Hc'. simpl. now rewrite <- app_assoc.
Qed.

(** X22. [seed_products] passes over conflicts only.  On an empty products
    container, when the first [k] creations go through and the next one
    raises an exception that is no conflict, [seed_products] raises it and
    exactly the first [k] seed products are stored. *)
Theorem seed_products_interrupted (w : World) (k : nat) (e : exn)
    (rest : list (option exn)) :
  products_container w = Some [] ->
  faults w = repeat None k ++ Some e :: rest ->
  (k < 13)%nat ->
  is_CosmosResourceExistsError e = false ->
  exists w',
    seed_products w = (inl e, w')
    /\ products_container w' = Some (firstn k seeded_products)
    /\ cart_container w' = cart_container w
    /\ orders_container w' = orders_container w.
Proof.
  intros Hc Hf Hk He.
  destruct (seed_loop_interrupted seeded_products k w [] e rest Hc Hf)
    as (w' & E & Hc' & Hrest); auto.
  - unfold seeded_products. simpl.
    repeat (constructor; [simpl; intuition discriminate|]). constructor.
  - exists w'. auto.
Qed.

(** * The further properties on the sample stores *)

Lemma access_token_lifetime_witness :
  get_current_user "k"
    (Some (Bearer (create_access_token "k" (mkClaims (Some "barista") (Some 5))
                     (Some 0) 1000))) 4600
  = Returned "barista"
  /\ get_current_user "k"
       (Some (Bearer (create_access_token "k" (mkClaims (Some "barista") None)
                        (Some 120) 1000))) 1121
     = HTTPException 401 "Invalid or expired token".
Proof.
  split.
  - apply (proj1 (access_token_lifetime "k" (mkClaims (Some "barista") (Some 5))
                    (Some 0) 1000 4600 "barista" eq_refl)).
    now right.
  - apply (proj2 (access_token_lifetime "k" (mkClaims (Some "barista") None)
                    (Some 120) 1000 1121 "barista" eq_refl) 120);
      [reflexivity | discriminate].
Defined.

Lemma guarded_route_rejects_before_handler_witness :
  guarded "k" None 1000 get_cart cafe = (HTTPException 401 "Not authenticated", cafe)
  /\ guarded "k" (Some (Plain "Basic YmFyaXN0YQ==")) 1000 get_orders cafe
     = (HTTPException 401 "Not authenticated", cafe)
  /\ exists detail,
       guarded "k" (Some (Bearer (Signed (mkClaims (Some "barista") None) "other" "HS256")))
         1000 get_cart cafe
       = (HTTPException 401 detail, cafe).
Proof.
  split; [|split].
  - apply (guarded_route_rejects_before_handler "k" None 1000 get_cart cafe).
    now left.
  - apply (guarded_route_rejects_before_handler "k"
             (Some (Plain "Basic YmFyaXN0YQ==")) 1000 get_orders cafe).
    right. exists "Basic YmFyaXN0YQ=="%string. split; reflexivity.
  - apply (guarded_route_rejects_before_handler "k"
             (Some (Bearer (Signed (mkClaims (Some "barista") None) "other" "HS256")))
             1000 get_cart cafe).
    intros u. discriminate.
Defined.

Lemma login_opens_guarded_routes_witness :
  guarded "k" (Some (Bearer (create_access_token "k" (mkClaims (Some "barista") None)
                               None 1000))) 2000 get_cart cafe
  = get_cart DEMO_USERNAME cafe.
Proof.
  apply (login_opens_guarded_routes "k" (mkLoginRequest "barista" "coffee123")
           1000 2000 _ "bearer" get_cart cafe eq_refl).
  discriminate.
Defined.

Lemma cart_routes_without_store_witness :
  add_to_cart (mkCartItem "1" 2) "barista" "c9" cafe_without_store
  = (ReturnedError "Database not available", cafe_without_store)
  /\ get_cart "barista" cafe_without_store = (Returned [], cafe_without_store)
  /\ get_orders "barista" cafe_without_store = (Returned [], cafe_without_store).
Proof.
  destruct (cart_routes_without_store cafe_without_store "barista" "1" "c9"
              "2024-05-01T09:00:00" (mkCartItem "1" 2)) as (Hcart & _ & Horders).
  destruct (Hcart eq_refl) as (Hadd & _ & _ & Hget).
  destruct (Horders eq_refl) as (_ & Hlist).
  split; [exact Hadd|]. split; [exact Hget | exact Hlist].
Defined.

Lemma add_to_cart_error_leaves_store_witness :
  same_documents cafe_cosmos_down
    (snd (add_to_cart (mkCartItem "2" 1) "barista" "c9" cafe_cosmos_down)).
Proof.
  apply (add_to_cart_error_leaves_store cafe_cosmos_down (mkCartItem "2" 1)
           "barista" "c9" "Service Unavailable").
  reflexivity.
Defined.

Lemma add_to_cart_overwrites_first_duplicate_only_witness :
  exists w' cart',
    add_to_cart (mkCartItem "1" 9) "barista" "c9" cafe_with_duplicates
    = (ReturnedMessage "Saved successfully", w')
    /\ cart_container w' = Some cart'
    /\ select (line_of DEFAULT_USER "1") cart'
       = [set_quantity guest_espresso 9; guest_espresso_again]
    /\ length cart' = 3%nat.
Proof.
  apply (add_to_cart_overwrites_first_duplicate_only cafe_with_duplicates
           (Some [espresso; cappuccino])
           [guest_espresso; guest_cappuccino; guest_espresso_again] (Some [])
           (mkCartItem "1" 9) "barista" "c9" guest_espresso [guest_espresso_again]);
    try reflexivity; sample_store.
Defined.

Lemma add_then_remove_restores_cart_witness :
  exists w1 w2,
    add_to_cart (mkCartItem "2" 1) "barista" "c9" cafe_before_opening
    = (ReturnedMessage "Saved successfully", w1)
    /\ cart_container w1 <> Some [alice_espresso]
    /\ remove_from_cart "2" "barista" w1 = (ReturnedMessage "Removed successfully", w2)
    /\ holds w2 (Some [espresso; cappuccino]) (Some [alice_espresso]) (Some []).
Proof.
  apply (add_then_remove_restores_cart cafe_before_opening
           (Some [espresso; cappuccino]) [alice_espresso] (Some [])
           (mkCartItem "2" 1) "barista" "c9");
    try reflexivity; sample_store.
Defined.


Lemma remove_from_cart_interrupted_witness :
  exists w' cart',
    remove_from_cart "1" "barista" cafe_failing_third_call
    = (ReturnedError "Connection reset", w')
    /\ cart_container w' = Some cart'
    /\ select (line_of DEFAULT_USER "1") cart' = [guest_espresso_again]
    /\ filter (fun x => negb (line_of DEFAULT_USER "1" x)) cart' = [guest_cappuccino].
Proof.
  apply (remove_from_cart_interrupted cafe_failing_third_call
           [guest_espresso; guest_cappuccino; guest_espresso_again]
           "1" "barista" 1 (ServiceRequestError "Connection reset") []);
    try reflexivity; try (simpl; lia); sample_store.
Defined.

Lemma create_order_interrupted_witness :
  exists w' cart' order,
    create_order "barista" "order-1" "2024-05-01T09:00:00" cafe_failing_fourth_call
    = (ReturnedError "Connection reset", w')
    /\ orders_container w' = Some ([] ++ [order])
    /\ o_id order = "order-1"%string
    /\ o_items order = [mkOrderItem "1" 2; mkOrderItem "2" 1]
    /\ cart_container w' = Some cart'
    /\ select (owned_by DEFAULT_USER) cart' = [guest_cappuccino]
    /\ select (owned_by DEFAULT_USER) cart' <> [].
Proof.
  apply (create_order_interrupted cafe_failing_fourth_call
           [guest_espresso; alice_espresso; guest_cappuccino] []
           "barista" "order-1" "2024-05-01T09:00:00" 1
           (ServiceRequestError "Connection reset") []);
    try reflexivity; try (simpl; lia); sample_store.
Defined.

Lemma create_order_stores_before_clearing_witness :
  cart_container
    (snd (create_order "barista" "order-1" "2024-05-01T09:00:00" cafe_cosmos_down))
  = Some [guest_espresso]
  /\ orders_container
       (snd (create_order "barista" "order-1" "2024-05-01T09:00:00" cafe_cosmos_down))
     = Some [].
Proof.
  destruct (create_order_stores_before_clearing cafe_cosmos_down [guest_espresso] []
              "barista" "order-1" "2024-05-01T09:00:00" eq_refl eq_refl)
    as [[Hsame|Hstored] _].
  - exact Hsame.
  - vm_compute in Hstored. discriminate.
Defined.

Lemma create_order_copies_every_line_witness :
  exists w' order,
    create_order "barista" "order-1" "2024-05-01T09:00:00" cafe = (Returned order, w')
    /\ o_id order = "order-1"%string
    /\ o_user_id order = DEFAULT_USER
    /\ o_status order = "confirmed"%string
    /\ o_created_at order = "2024-05-01T09:00:00"%string
    /\ o_items order = [mkOrderItem "1" 2; mkOrderItem "2" 1]
    /\ orders_container w' = Some ([] ++ [order])
    /\ cart_container w' = Some [alice_espresso].
Proof.
  apply (create_order_copies_every_line cafe (Some [espresso; cappuccino])
           [guest_espresso; alice_espresso; guest_cappuccino] []
           "barista" "order-1" "2024-05-01T09:00:00");
    sample_store.
Defined.

Lemma create_order_then_get_orders_witness :
  exists w0 w1 w2 order,
    get_orders "barista" cafe = (Returned [], w0)
    /\ create_order "barista" "order-1" "2024-05-01T09:00:00" cafe
       = (Returned order, w1)
    /\ get_orders "barista" w1 = (Returned ([] ++ [order]), w2).
Proof.
  apply (create_order_then_get_orders cafe (Some [espresso; cappuccino])
           [guest_espresso; alice_espresso; guest_cappuccino] []
           "barista" "order-1" "2024-05-01T09:00:00");
    sample_store.
Defined.

Lemma create_order_twice_witness :
  exists w1 w2 w3 first second,
    create_order "barista" "order-1" "2024-05-01T09:00:00" cafe = (Returned first, w1)
    /\ get_cart "barista" w1 = (Returned [], w2)
    /\ create_order "barista" "order-2" "2024-05-01T09:00:05" w2
       = (Returned second, w3)
    /\ o_items second = []
    /\ orders_container w3 = Some ([] ++ [first; second]).
Proof.
  apply (create_order_twice cafe [espresso; cappuccino]
           [guest_espresso; alice_espresso; guest_cappuccino] []
           "barista" "order-1" "order-2" "2024-05-01T09:00:00" "2024-05-01T09:00:05");
    try discriminate; sample_store.
Defined.

Lemma get_product_returns_first_match_witness :
  exists found w' before after,
    get_product "2" cafe = (Returned found, w')
    /\ [espresso; cappuccino] = before ++ found :: after
    /\ p_id found = "2"%string
    /\ (forall p, In p before -> p_id p <> "2"%string)
    /\ (NoDup (map p_id [espresso; cappuccino]) -> found = cappuccino).
Proof.
  apply (get_product_returns_first_match cafe [espresso; cappuccino]
           (Some [guest_espresso; alice_espresso; guest_cappuccino]) (Some [])
           "2" cappuccino);
    try reflexivity; [sample_store | simpl; auto].
Defined.

Lemma list_products_filters_by_category_witness :
  exists result w',
    list_products (Some "") cafe = (Returned result, w')
    /\ result = [espresso; cappuccino].
Proof.
  destruct (list_products_filters_by_category cafe [espresso; cappuccino]
              (Some [guest_espresso; alice_espresso; guest_cappuccino]) (Some [])
              (Some ""%string))
    as (result & w' & E & Hall & _); [sample_store|].
  exists result, w'. split; [exact E|]. apply Hall. now right.
Defined.

Lemma search_products_matches_substrings_witness :
  exists result w',
    search_products "presso" cafe = (Returned result, w')
    /\ In espresso result.
Proof.
  destruct (search_products_matches_substrings cafe [espresso; cappuccino]
              (Some [guest_espresso; alice_espresso; guest_cappuccino]) (Some [])
              "presso")
    as (result & w' & E & _ & Hin & _); [sample_store|].
  exists result, w'. split; [exact E|]. apply Hin. split; [simpl; auto|].
  left. exists "Es"%string, " Shot"%string. reflexivity.
Defined.

Lemma seed_products_fills_in_missing_witness :
  exists w1 w2 c1 extra,
    seed_products cafe_unseeded = (inr tt, w1)
    /\ holds w1 (Some c1) (Some []) (Some [])
    /\ c1 = [] ++ extra
    /\ incl extra seeded_products
    /\ (forall p, In p seeded_products -> exists d, In d c1 /\ p_id d = p_id p)
    /\ (@nil Product = [] -> c1 = seeded_products)
    /\ seed_products w1 = (inr tt, w2)
    /\ holds w2 (Some c1) (Some []) (Some []).
Proof.
  apply (seed_products_fills_in_missing cafe_unseeded [] (Some []) (Some [])).
  sample_store.
Defined.

Lemma seed_products_interrupted_witness :
  exists w',
    seed_products cafe_unseeded_flaky
    = (inl (ServiceRequestError "Connection reset"), w')
    /\ products_container w' = Some (firstn 2 seeded_products)
    /\ cart_container w' = Some []
    /\ orders_container w' = Some [].
Proof.
  apply (seed_products_interrupted cafe_unseeded_flaky 2
           (ServiceRequestError "Connection reset") []);
    try reflexivity. lia.
Defined.
